(** * Excel quotation builder of the Lexware offer tool (src/server.js)

    Shallow embedding of [parseExcelAndBuildQuotationPayload] and its helpers
    ([numOrNull], [toLowerTrim], [round2], [sheetRowsToKeyValueObject],
    [buildUnitPriceFromNetGross], [buildUnitPriceFromExcel],
    [buildUnitPriceFromArticle]).

    Modelling choices:
    - JavaScript values that occur in spreadsheet cells and API answers are the
      type [jsval]; JS objects read by key are association lists ([obj]).
    - JS numbers are modelled as exact rationals together with NaN and the two
      infinities ([num]); the rounding of IEEE doubles is not modelled.
    - The workbook is taken after [XLSX.read]/[sheet_to_json] (library code):
      each sheet is either absent or a list of row objects.
    - The awaited catalog lookup [getArticleById] is a function
      [string -> option Article]; [None] stands for every falsy answer
      (not found, any non-2xx status).
    - The clock ([Date.now()]) is an explicit argument in milliseconds. *)

From Stdlib Require Import String Ascii List Bool ZArith QArith Qround Qminmax Lia Lqa.
Import ListNotations.
Open Scope string_scope.

(* ------------------------------------------------------------------ *)
(** ** JavaScript numbers and values *)

Inductive num : Type :=
| Fin (q : Q)
| NaN
| PInf
| NInf.

(** Finite numbers are kept in reduced form, so that equal numbers are
    syntactically equal. *)
Definition fin (q : Q) : num := Fin (Qred q).

Definition is_finite (n : num) : bool :=
  match n with Fin _ => true | _ => false end.

Inductive jsval : Type :=
| JUndef
| JNull
| JBool (b : bool)
| JNum (n : num)
| JStr (s : string).

(** JS objects read by key (rows of [sheet_to_json], key/value objects). *)
Definition obj := list (string * jsval).

Fixpoint get (o : obj) (k : string) : jsval :=
  match o with
  | [] => JUndef
  | (k', v) :: r => if String.eqb k k' then v else get r k
  end.

Fixpoint has_key (o : obj) (k : string) : bool :=
  match o with
  | [] => false
  | (k', _) :: r => String.eqb k k' || has_key r k
  end.

(** [o[k] = v]: overwrite in place, or append a new key. *)
Fixpoint set (o : obj) (k : string) (v : jsval) : obj :=
  match o with
  | [] => [(k, v)]
  | (k', v') :: r => if String.eqb k k' then (k', v) :: r else (k', v') :: set r k v
  end.

(** JS truthiness. *)
Definition truthy (v : jsval) : bool :=
  match v with
  | JUndef | JNull => false
  | JBool b => b
  | JNum (Fin q) => negb (Qeq_bool q 0)
  | JNum NaN => false
  | JNum _ => true
  | JStr s => negb (String.eqb s "")
  end.

(** [a || b] and [a ?? b]. *)
Definition js_or (a b : jsval) : jsval := if truthy a then a else b.

Definition js_nullish (a b : jsval) : jsval :=
  match a with JUndef | JNull => b | _ => a end.

(* ------------------------------------------------------------------ *)
(** ** Strings: [trim], [toLowerCase] (ASCII), [Number()] and [String()] *)

Definition is_ws (c : ascii) : bool :=
  let n := nat_of_ascii c in (n =? 32)%nat || ((9 <=? n)%nat && (n <=? 13)%nat).

Fixpoint drop_ws (l : list ascii) : list ascii :=
  match l with
  | c :: r => if is_ws c then drop_ws r else l
  | [] => []
  end.

Definition trim_list (l : list ascii) : list ascii := rev (drop_ws (rev (drop_ws l))).

Definition trim (s : string) : string :=
  string_of_list_ascii (trim_list (list_ascii_of_string s)).

Definition lower_char (c : ascii) : ascii :=
  let n := nat_of_ascii c in
  if (65 <=? n)%nat && (n <=? 90)%nat then ascii_of_nat (n + 32) else c.

Fixpoint toLowerCase (s : string) : string :=
  match s with
  | EmptyString => EmptyString
  | String c r => String (lower_char c) (toLowerCase r)
  end.

(** Digit of radix [b] (0-9, then letters). *)
Definition radix_digit (b : Z) (c : ascii) : option Z :=
  let n := Z.of_nat (nat_of_ascii c) in
  let d := if (48 <=? n)%Z && (n <=? 57)%Z then (n - 48)%Z
           else if (97 <=? n)%Z && (n <=? 122)%Z then (n - 87)%Z
           else if (65 <=? n)%Z && (n <=? 90)%Z then (n - 55)%Z
           else 99%Z in
  if (d <? b)%Z then Some d else None.

(** Greedy digit run: accumulated value, number of digits, rest. *)
Fixpoint take_digits (b : Z) (l : list ascii) (acc : Z) (cnt : nat)
  : Z * nat * list ascii :=
  match l with
  | c :: r =>
      match radix_digit b c with
      | Some d => take_digits b r (acc * b + d)%Z (S cnt)
      | None => (acc, cnt, l)
      end
  | [] => (acc, cnt, [])
  end.

Definition is_char (c : ascii) (n : nat) : bool := (nat_of_ascii c =? n)%nat.

(** StrUnsignedDecimalLiteral: digits [. digits] [e|E [+|-] digits]. *)
Definition parse_unsigned_decimal (l : list ascii) : option Q :=
  let '(ip, ni, r1) := take_digits 10 l 0 0 in
  let '(mant, nf, r2) :=
    match r1 with
    | c :: r => if is_char c 46 then take_digits 10 r ip 0 else (ip, 0%nat, r1)
    | [] => (ip, 0%nat, r1)
    end in
  if (ni + nf =? 0)%nat then None else
  match r2 with
  | [] => Some (inject_Z mant * Qpower 10 (- Z.of_nat nf))
  | e :: r3 =>
      if is_char e 101 || is_char e 69 then
        let '(sg, r4) :=
          match r3 with
          | c :: r => if is_char c 43 then (1%Z, r)
                      else if is_char c 45 then ((-1)%Z, r) else (1%Z, r3)
          | [] => (1%Z, r3)
          end in
        let '(ev, ne, r5) := take_digits 10 r4 0 0 in
        match ne, r5 with
        | S _, [] => Some (inject_Z mant * Qpower 10 (sg * ev - Z.of_nat nf))
        | _, _ => None
        end
      else None
  end.

(** 0x / 0o / 0b literals: at least one digit and nothing after. *)
Definition parse_radix (b : Z) (l : list ascii) : num :=
  match take_digits b l 0 0 with
  | (v, S _, []) => fin (inject_Z v)
  | _ => NaN
  end.

Definition opt_num (o : option Q) : num :=
  match o with Some q => fin q | None => NaN end.

(** StringToNumber (ECMA-262 7.1.4.1.1). *)
Definition string_to_number (s : string) : num :=
  let l := trim_list (list_ascii_of_string s) in
  if String.eqb (string_of_list_ascii l) "Infinity"
     || String.eqb (string_of_list_ascii l) "+Infinity" then PInf
  else if String.eqb (string_of_list_ascii l) "-Infinity" then NInf
  else
  match l with
  | [] => fin 0
  | c :: x :: r =>
      if is_char c 48 && (is_char x 120 || is_char x 88) then parse_radix 16 r
      else if is_char c 48 && (is_char x 111 || is_char x 79) then parse_radix 8 r
      else if is_char c 48 && (is_char x 98 || is_char x 66) then parse_radix 2 r
      else if is_char c 43 then opt_num (parse_unsigned_decimal (x :: r))
      else if is_char c 45 then
        match parse_unsigned_decimal (x :: r) with
        | Some q => fin (- q)
        | None => NaN
        end
      else opt_num (parse_unsigned_decimal l)
  | [c] => opt_num (parse_unsigned_decimal l)
  end.

(** [Number(v)]. *)
Definition to_number (v : jsval) : num :=
  match v with
  | JUndef => NaN
  | JNull => fin 0
  | JBool b => if b then fin 1 else fin 0
  | JNum n => n
  | JStr s => string_to_number s
  end.

Fixpoint z_digits (fuel : nat) (z : Z) (acc : string) : string :=
  match fuel with
  | O => acc
  | S f =>
      let acc' := String (ascii_of_nat (48 + Z.to_nat (z mod 10))) acc in
      if (z <? 10)%Z then acc' else z_digits f (z / 10) acc'
  end.

Definition Z_to_dec (z : Z) : string :=
  if (z <? 0)%Z then "-" ++ z_digits 400 (- z) "" else z_digits 400 z "".

(** Fraction digits of [rem/d] (at most [fuel] of them). *)
Fixpoint frac_digits (fuel : nat) (rem d : Z) : list Z :=
  match fuel with
  | O => []
  | S f => if (rem =? 0)%Z then []
           else ((rem * 10) / d)%Z :: frac_digits f ((rem * 10) mod d) d
  end.

Definition digits_string (l : list Z) : string :=
  fold_right (fun d acc => String (ascii_of_nat (48 + Z.to_nat d)) acc) "" l.

(** [Number::toString]: decimal notation, at most 20 fraction digits (the
    values the claims look at are integers or short decimals). *)
Definition num_to_string (n : num) : string :=
  match n with
  | NaN => "NaN"
  | PInf => "Infinity"
  | NInf => "-Infinity"
  | Fin q =>
      let q' := Qred q in
      let a := Z.abs (Qnum q') in
      let d := Zpos (Qden q') in
      let body := Z_to_dec (a / d) ++
                  match frac_digits 20 (a mod d) d with
                  | [] => ""
                  | fd => "." ++ digits_string fd
                  end in
      if (Qnum q' <? 0)%Z then "-" ++ body else body
  end.

(** [String(v)]. *)
Definition js_string (v : jsval) : string :=
  match v with
  | JUndef => "undefined"
  | JNull => "null"
  | JBool b => if b then "true" else "false"
  | JNum n => num_to_string n
  | JStr s => s
  end.

(* ------------------------------------------------------------------ *)
(** ** Helpers of server.js *)

(** [numOrNull] (server.js 300-304). *)
Definition numOrNull (v : jsval) : option num :=
  match v with
  | JStr EmptyString | JNull | JUndef => None
  | _ => let n := to_number v in if is_finite n then Some n else None
  end.

(** [toLowerTrim] (server.js 306-308). *)
Definition toLowerTrim (v : jsval) : string :=
  toLowerCase (trim (js_string (js_or v (JStr "")))).


(* ------------------------------------------------------------------ *)
(** ** Number arithmetic used by the price helpers *)

Definition num_add (a b : num) : num :=
  match a, b with
  | Fin x, Fin y => fin (x + y)
  | NaN, _ | _, NaN => NaN
  | PInf, NInf | NInf, PInf => NaN
  | PInf, _ | _, PInf => PInf
  | NInf, _ | _, NInf => NInf
  end.

Definition sign_inf (pos : bool) : num := if pos then PInf else NInf.

(** [0 < x]. *)
Definition qpos (x : Q) : bool := negb (Qle_bool x 0).

Definition num_mul (a b : num) : num :=
  match a, b with
  | Fin x, Fin y => fin (x * y)
  | NaN, _ | _, NaN => NaN
  | Fin x, PInf | PInf, Fin x =>
      if Qeq_bool x 0 then NaN else sign_inf (qpos x)
  | Fin x, NInf | NInf, Fin x =>
      if Qeq_bool x 0 then NaN else sign_inf (negb (qpos x))
  | PInf, PInf | NInf, NInf => PInf
  | PInf, NInf | NInf, PInf => NInf
  end.

Definition num_div (a b : num) : num :=
  match a, b with
  | NaN, _ | _, NaN => NaN
  | Fin x, Fin y =>
      if Qeq_bool y 0 then
        (if Qeq_bool x 0 then NaN else sign_inf (qpos x))
      else fin (x / y)
  | Fin _, _ => fin 0
  | PInf, Fin y => sign_inf (Qle_bool 0 y)
  | NInf, Fin y => sign_inf (negb (Qle_bool 0 y))
  | _, _ => NaN
  end.

(** [Math.round]: floor (x + 1/2). *)
Definition math_round (n : num) : num :=
  match n with
  | Fin q => fin (inject_Z (Qfloor (q + (1 # 2))))
  | _ => n
  end.

(** [Number.EPSILON] = 2^-52. *)
Definition EPSILON : Q := 1 # (2 ^ 52).

(** [round2] (server.js 310-312); its argument is always a number. The
    arithmetic here is exact: the rounding of the intermediate IEEE doubles is
    not modelled, so the last cent can differ from the code's (2.135 gives
    2.14 here, 2.13 in JavaScript). *)
Definition round2 (n : num) : num :=
  num_div (math_round (num_mul (num_add n (Fin EPSILON)) (fin 100))) (fin 100).

(* ------------------------------------------------------------------ *)
(** ** Catalog articles and unit prices *)

(** [price] object of a catalog article. *)
Record Price := mkPrice {
  netPrice : jsval;
  grossPrice : jsval;
  taxRate : jsval
}.

(** Article object returned by [getArticleById]. *)
Record Article := mkArticle {
  title : option string;
  price : option Price
}.

(** The [unitPrice] object of a line item: [up_netAmount]/[up_grossAmount]
    are [None] when the key is absent from the object. *)
Record UnitPrice := mkUnitPrice {
  up_currency : string;
  up_netAmount : option num;
  up_grossAmount : option num;
  up_taxRatePercentage : num
}.

(** [buildUnitPriceFromNetGross] (server.js 376-392); [None] stands for a
    [null] argument. *)
Definition buildUnitPriceFromNetGross (net gross taxRate : option num)
  : option UnitPrice :=
  let tr := match taxRate with Some t => t | None => fin 19 end in
  let factor := num_add (fin 1) (num_div tr (fin 100)) in
  let netAmount := net in
  let grossAmount := gross in
  let netAmount :=
    match netAmount, grossAmount with
    | None, Some g => Some (num_div g factor)
    | _, _ => netAmount
    end in
  let grossAmount :=
    match grossAmount, netAmount with
    | None, Some n => Some (num_mul n factor)
    | _, _ => grossAmount
    end in
  match netAmount, grossAmount with
  | Some n, Some g =>
      Some {| up_currency := "EUR";
              up_netAmount := Some (round2 n);
              up_grossAmount := Some (round2 g);
              up_taxRatePercentage := tr |}
  | _, _ => None
  end.

(** [buildUnitPriceFromExcel] (server.js 394-403); [Number(null)] is 0. *)
Definition buildUnitPriceFromExcel (taxType : string) (amount taxRate : option num)
  : option UnitPrice :=
  let tr := match taxRate with Some t => t | None => fin 19 end in
  let a := match amount with Some n => n | None => fin 0 end in
  if negb (is_finite a) then None
  else if String.eqb (trim taxType) "gross"
  then buildUnitPriceFromNetGross None (Some a) (Some tr)
  else buildUnitPriceFromNetGross (Some a) None (Some tr).

Definition not_nullish (v : jsval) : bool :=
  match v with JUndef | JNull => false | _ => true end.

(** [buildUnitPriceFromArticle] (server.js 405-414). *)
Definition buildUnitPriceFromArticle (articleObj : option Article) : option UnitPrice :=
  match articleObj with
  | None => None
  | Some a =>
      match price a with
      | None => None
      | Some p =>
          let tr := to_number (js_nullish (taxRate p) (JNum (fin 19))) in
          let net := if not_nullish (netPrice p) then Some (to_number (netPrice p)) else None in
          let gross := if not_nullish (grossPrice p) then Some (to_number (grossPrice p)) else None in
          buildUnitPriceFromNetGross net gross (Some tr)
      end
  end.


(* ------------------------------------------------------------------ *)
(** ** Builder state: errors, warnings, auto-named items, byType, line items *)

Record Err := mkErr {
  e_sheet : string;
  e_row : option nat;
  e_field : option string;
  e_message : string
}.

Record Warn := mkWarn {
  w_sheet : string;
  w_row : nat;
  w_message : string
}.

Record AutoNamed := mkAutoNamed {
  an_row : nat;
  an_articleId : option string;
  an_name : string
}.

(** A line item object; [None] fields are absent ([undefined]) keys. *)
Record LineItem := mkLineItem {
  li_type : string;
  li_name : string;
  li_description : option string;
  li_quantity : option num;
  li_unitName : option string;
  li_id : option string;
  li_unitPrice : option UnitPrice;
  li_discountPercentage : option num
}.

(** The accumulators of the row loop of [parseExcelAndBuildQuotationPayload]. *)
Record St := mkSt {
  errors : list Err;
  warnings : list Warn;
  autoNamedLineItems : list AutoNamed;
  byType : list (string * nat);
  lineItems : list LineItem
}.

Definition push_error (st : St) (e : Err) : St :=
  mkSt (errors st ++ [e]) (warnings st) (autoNamedLineItems st) (byType st) (lineItems st).
Definition push_warning (st : St) (w : Warn) : St :=
  mkSt (errors st) (warnings st ++ [w]) (autoNamedLineItems st) (byType st) (lineItems st).
Definition push_autoNamed (st : St) (a : AutoNamed) : St :=
  mkSt (errors st) (warnings st) (autoNamedLineItems st ++ [a]) (byType st) (lineItems st).
Definition push_item (st : St) (it : LineItem) : St :=
  mkSt (errors st) (warnings st) (autoNamedLineItems st) (byType st) (lineItems st ++ [it]).

Fixpoint tally (m : list (string * nat)) (k : string) : list (string * nat) :=
  match m with
  | [] => [(k, 1%nat)]
  | (k', n) :: r => if String.eqb k k' then (k', S n) :: r else (k', n) :: tally r k
  end.

(** [byType[type] = (byType[type] || 0) + 1]. *)
Definition bump_type (st : St) (t : string) : St :=
  mkSt (errors st) (warnings st) (autoNamedLineItems st) (tally (byType st) t) (lineItems st).

Definition set_unitPrice (it : LineItem) (up : UnitPrice) : LineItem :=
  mkLineItem (li_type it) (li_name it) (li_description it) (li_quantity it)
    (li_unitName it) (li_id it) (Some up) (li_discountPercentage it).

Definition set_discount (it : LineItem) (d : num) : LineItem :=
  mkLineItem (li_type it) (li_name it) (li_description it) (li_quantity it)
    (li_unitName it) (li_id it) (li_unitPrice it) (Some d).

Definition set_id (it : LineItem) (id : string) : LineItem :=
  mkLineItem (li_type it) (li_name it) (li_description it) (li_quantity it)
    (li_unitName it) (Some id) (li_unitPrice it) (li_discountPercentage it).

(** The double-quote character (messages quote the automatic name). *)
Definition dq : string := String (ascii_of_nat 34) EmptyString.

Definition nonempty (s : string) : bool := negb (String.eqb s "").

Definition opt_truthy (o : option num) : bool :=
  match o with Some n => truthy (JNum n) | None => false end.

(** [qty > 0] for a number or [null] ([null > 0] is false). *)
Definition gt0 (o : option num) : bool :=
  match o with Some (Fin q) => qpos q | Some PInf => true | _ => false end.

(** [x !== true]. *)
Definition not_strict_true (v : jsval) : bool :=
  match v with JBool true => false | _ => true end.

Definition pos_err (excelRow : nat) (field msg : string) : Err :=
  mkErr "Positionen" (Some excelRow) (Some field) msg.

(** [const canUseExcelPrice = ...] (server.js 551-554). *)
Definition canUseExcelPrice (unitPriceAmount : option num) (type articleId : string)
  (allowPriceOverride : jsval) : bool :=
  match unitPriceAmount with Some _ => true | None => false end
  && negb (String.eqb type "material" || String.eqb type "service")
  && negb (String.eqb type "custom" && nonempty articleId
           && not_strict_true allowPriceOverride).

(** The [const]s read at the top of the loop body (server.js 469-482). *)
Record RowFields := mkRowFields {
  rf_type : string;
  rf_articleId : string;
  rf_name : string;
  rf_description : string;
  rf_qty : option num;
  rf_unitName : string;
  rf_unitPriceAmount : option num;
  rf_taxRatePercentage : option num;
  rf_discountPercent : option num
}.

Definition read_row (row : obj) : RowFields :=
  {| rf_type := toLowerTrim (get row "type");
     rf_articleId := trim (js_string (js_or (get row "articleId")
                                        (js_or (get row "articleID") (JStr ""))));
     rf_name := trim (js_string (js_or (get row "name") (JStr "")));
     rf_description := trim (js_string (js_or (get row "description") (JStr "")));
     rf_qty := numOrNull (js_nullish (get row "quantity") (js_nullish (get row "qty")
                 (js_nullish (get row "Qty") (js_nullish (get row "Menge") (get row "menge")))));
     rf_unitName := trim (js_string (js_or (get row "unitName")
                                       (js_or (get row "unit") (JStr ""))));
     rf_unitPriceAmount := numOrNull (js_nullish (get row "unitPriceAmount")
                 (js_nullish (get row "unitPrice") (js_nullish (get row "price") (get row "Preis"))));
     rf_taxRatePercentage := numOrNull (js_nullish (get row "taxRatePercentage")
                 (js_nullish (get row "taxRate") (get row "tax")));
     rf_discountPercent := numOrNull (js_nullish (get row "discountPercent") (get row "discount")) |}.

(** [const hasAny = type || articleId || ... || discountPercent] (truthiness). *)
Definition hasAny (f : RowFields) : bool :=
  nonempty (rf_type f) || nonempty (rf_articleId f) || nonempty (rf_name f)
  || nonempty (rf_description f) || opt_truthy (rf_qty f) || nonempty (rf_unitName f)
  || opt_truthy (rf_unitPriceAmount f) || opt_truthy (rf_taxRatePercentage f)
  || opt_truthy (rf_discountPercent f).

Section Loop.
(** The awaited catalog lookup of the build call. *)
Variable getArticleById : string -> option Article.
Variable taxType : string.
Variable allowPriceOverride : jsval.

(** Body of the [for] loop over the Positionen rows (server.js 465-613);
    [continue] returns the current state. *)
Definition row_step (st : St) (i : nat) (row : obj) : St :=
    let excelRow := (i + 2)%nat in
    let f := read_row row in
    let type := rf_type f in
    let articleId := rf_articleId f in
    let name := rf_name f in
    let description := rf_description f in
    let qty := rf_qty f in
    let unitName := rf_unitName f in
    let unitPriceAmount := rf_unitPriceAmount f in
    let taxRatePercentage := rf_taxRatePercentage f in
    let discountPercent := rf_discountPercent f in
    if negb (hasAny f) then st else
    if String.eqb type "" then push_error st (pos_err excelRow "type" "type ist Pflicht.") else
    let st := bump_type st type in
    if String.eqb type "text" then
      let txtName := if nonempty name then name else if nonempty description then description
                     else "Hinweis " ++ Z_to_dec (Z.of_nat excelRow) in
      push_item st (mkLineItem "text" txtName
                      (if nonempty description then Some description else None)
                      None None None None None)
    else
    if negb (gt0 qty) then push_error st (pos_err excelRow "qty" "qty muss größer als 0 sein.") else
    if String.eqb unitName "" then push_error st (pos_err excelRow "unitName" "unitName ist Pflicht.") else
    if (String.eqb type "material" || String.eqb type "service") && String.eqb articleId "" then
      push_error st (pos_err excelRow "articleId" "articleId ist Pflicht bei type=material/service.")
    else
    let lookup := if nonempty articleId then
                    match getArticleById articleId with
                    | Some a => Some (Some a)
                    | None => None
                    end
                  else Some None in
    match lookup with
    | None =>
        push_error st (pos_err excelRow "articleId"
          ("Artikel konnte nicht geladen werden (articleId=" ++ articleId ++ ")."))
    | Some articleObj =>
    let '(st, name) :=
      if String.eqb name "" && nonempty articleId then
        let autoName := match articleObj with
                        | Some a => match title a with
                                    | Some t => if nonempty t then t else "Artikel " ++ articleId
                                    | None => "Artikel " ++ articleId
                                    end
                        | None => "Artikel " ++ articleId
                        end in
        let st := push_autoNamed st (mkAutoNamed excelRow (Some articleId) autoName) in
        let st := push_warning st (mkWarn "Positionen" excelRow
          ("Name war leer → automatisch aus Artikel ergänzt: " ++ dq ++ autoName ++ dq ++ ".")) in
        (st, autoName)
      else (st, name) in
    let '(st, name) :=
      if String.eqb name "" then
        let name := "Position " ++ Z_to_dec (Z.of_nat excelRow) in
        let st := push_autoNamed st (mkAutoNamed excelRow
                    (if nonempty articleId then Some articleId else None) name) in
        let st := push_warning st (mkWarn "Positionen" excelRow
          ("Name war leer → automatisch gesetzt: " ++ dq ++ name ++ dq ++ ".")) in
        (st, name)
      else (st, name) in
    let item := mkLineItem type name (if nonempty description then Some description else None)
                  qty (Some unitName) None None None in
    let item := if nonempty articleId && (String.eqb type "material" || String.eqb type "service")
                then set_id item articleId else item in
    (* --- AUTO unitPrice --- *)
    let priced : St + (St * LineItem) :=
      if canUseExcelPrice unitPriceAmount type articleId allowPriceOverride then
        let rate := match taxRatePercentage with Some r => r | None => fin 19 end in
        match buildUnitPriceFromExcel taxType unitPriceAmount (Some rate) with
        | None => inl (push_error st (pos_err excelRow "unitPriceAmount"
                         "unitPrice konnte aus Excel nicht gebaut werden."))
        | Some up => inr (st, set_unitPrice item up)
        end
      else if nonempty articleId then
        match buildUnitPriceFromArticle articleObj with
        | None => inl (push_error st (pos_err excelRow "unitPriceAmount"
                   ("unitPrice fehlt/ist unvollständig im Artikelstamm (articleId=" ++ articleId ++ ").")))
        | Some up =>
            let st := if match unitPriceAmount with None => true | Some _ => false end
                         || String.eqb type "material" || String.eqb type "service"
                      then push_warning st (mkWarn "Positionen" excelRow
                        ("Preis automatisch aus Artikelstamm gesetzt (articleId=" ++ articleId ++ ")."))
                      else st in
            inr (st, set_unitPrice item up)
        end
      else
        match unitPriceAmount with
        | None => inl (push_error st (pos_err excelRow "unitPriceAmount"
                        "Preis ist Pflicht, wenn keine articleId gesetzt ist."))
        | Some _ =>
            let rate := match taxRatePercentage with Some r => r | None => fin 19 end in
            match buildUnitPriceFromExcel taxType unitPriceAmount (Some rate) with
            | None => inl (push_error st (pos_err excelRow "unitPriceAmount"
                             "unitPrice konnte aus Excel nicht gebaut werden."))
            | Some up => inr (st, set_unitPrice item up)
            end
        end in
    match priced with
    | inl st => st
    | inr (st, item) =>
        let item := match discountPercent with Some d => set_discount item d | None => item end in
        match li_unitPrice item with
        | None => push_error st (pos_err excelRow "unitPrice"
                    "unitPrice fehlt (würde Lexware 406 auslösen).")
        | Some _ => push_item st item
        end
    end
    end.

(** The [for] loop: rows are numbered from index [i]. *)
Fixpoint pos_loop (st : St) (i : nat) (rows : list obj) : St :=
    match rows with
    | [] => st
    | row :: rest => pos_loop (row_step st i row) (S i) rest
    end.
End Loop.

(* ------------------------------------------------------------------ *)
(** ** Sheets, dates and the builder *)

(** [sheetRowsToKeyValueObject] (server.js 280-298). *)
Definition sheetRowsToKeyValueObject (rows : list obj) : option obj :=
  match rows with
  | [] => None
  | first :: _ =>
      let fieldCol := find (has_key first) ["Feld"; "feld"; "Field"; "field"] in
      let valueCol := find (has_key first) ["Wert"; "wert"; "Value"; "value"; "val"] in
      match fieldCol, valueCol with
      | Some fc, Some vc =>
          Some (fold_left (fun o r =>
                  let key := trim (js_string (js_or (get r fc) (JStr ""))) in
                  if String.eqb key "" then o else set o key (get r vc)) rows [])
      | _, _ => None
      end
  end.

(** [sheetRowsToKeyValueObject(rows) || rows[0] || {}]. *)
Definition section_object (rows : list obj) : obj :=
  match sheetRowsToKeyValueObject rows with
  | Some o => o
  | None => match rows with r :: _ => r | [] => [] end
  end.

(** The key a row contributes in [sheetRowsToKeyValueObject]:
    [String(r[fieldCol] || '').trim()]. *)
Definition kv_key (fc : string) (r : obj) : string :=
  trim (js_string (js_or (get r fc) (JStr ""))).

(** One pass of its [for (const r of rows)] loop. *)
Definition kv_step (fc vc : string) (o r : obj) : obj :=
  let key := kv_key fc r in
  if String.eqb key "" then o else set o key (get r vc).

(** [String(angebot.taxType || angebot.TaxType || angebot.TAXTYPE || '').trim()]. *)
Definition read_taxType (angebot : obj) : string :=
  trim (js_string (js_or (get angebot "taxType")
                     (js_or (get angebot "TaxType") (js_or (get angebot "TAXTYPE") (JStr ""))))).

(** [String(o[k] || d).trim()]. *)
Definition str_field (o : obj) (k d : string) : string :=
  trim (js_string (js_or (get o k) (JStr d))).

Definition undef_if_empty (s : string) : option string :=
  if String.eqb s "" then None else Some s.

Record Address := mkAddress {
  a_name : option string;
  a_contactId : option string;
  a_street : option string;
  a_zip : option string;
  a_city : option string;
  a_countryCode : string;
  a_contactPerson : option string;
  a_email : option string;
  a_phone : option string
}.

(** [Date.prototype.toISOString] for a time value in milliseconds. *)
Definition pad (w : nat) (z : Z) : string :=
  let s := Z_to_dec z in
  string_of_list_ascii (repeat "0"%char (w - String.length s)) ++ s.

Definition civil_from_days (days : Z) : Z * Z * Z :=
  let z := (days + 719468)%Z in
  let era := (z / 146097)%Z in
  let doe := (z - era * 146097)%Z in
  let yoe := ((doe - doe / 1460 + doe / 36524 - doe / 146096) / 365)%Z in
  let doy := (doe - (365 * yoe + yoe / 4 - yoe / 100))%Z in
  let mp := ((5 * doy + 2) / 153)%Z in
  let d := (doy - (153 * mp + 2) / 5 + 1)%Z in
  let m := if (mp <? 10)%Z then (mp + 3)%Z else (mp - 9)%Z in
  let y := (yoe + era * 400)%Z in
  ((if (m <=? 2)%Z then y + 1 else y)%Z, m, d).

Definition toISOString (t : Z) : string :=
  let days := (t / 86400000)%Z in
  let ms := (t mod 86400000)%Z in
  let '(y, m, d) := civil_from_days days in
  let year := if (0 <=? y)%Z && (y <=? 9999)%Z then pad 4 y
              else (if (y <? 0)%Z then "-" else "+") ++ pad 6 (Z.abs y) in
  year ++ "-" ++ pad 2 m ++ "-" ++ pad 2 d ++ "T" ++
  pad 2 (ms / 3600000) ++ ":" ++ pad 2 ((ms / 60000) mod 60) ++ ":" ++
  pad 2 ((ms / 1000) mod 60) ++ "." ++ pad 3 (ms mod 1000) ++ "Z".

Record Payload := mkPayload {
  p_voucherDate : string;
  p_expirationDate : string;
  p_address : Address;
  p_lineItems : list LineItem;
  p_totalPrice_currency : string;
  p_taxConditions : option string;
  p_shippingType : string
}.

(** The summary; the early return (missing sheet) only has errors and
    warnings, the other keys are then [None]. *)
Record Summary := mkSummary {
  s_errors : list Err;
  s_warnings : list Warn;
  s_byType : option (list (string * nat));
  s_autoNamedLineItems : option (list AutoNamed);
  s_allowPriceOverrideUsed : option bool;
  s_voucherDate : option string;
  s_taxType : option string
}.

Record Result := mkResult {
  r_ok : bool;
  r_payload : option Payload;
  r_summary : Summary
}.

(** The three sheets after [sheetToJson] ([None]: sheet missing). *)
Record Workbook := mkWorkbook {
  wb_Angebot : option (list obj);
  wb_Kunde : option (list obj);
  wb_Positionen : option (list obj)
}.

Definition missing_sheet (name : string) (rows : option (list obj)) : list Err :=
  match rows with
  | None => [mkErr name None None ("Sheet „" ++ name ++ "“ fehlt.")]
  | Some _ => []
  end.

(** [parseExcelAndBuildQuotationPayload] (server.js 419-640), with the
    catalog lookup, the clock [now] ([Date.now()]) and the option
    [allowPriceOverride] as arguments. *)
Definition parseExcelAndBuildQuotationPayload (getArticleById : string -> option Article)
  (now : Z) (wb : Workbook) (allowPriceOverride : jsval) : Result :=
  let errors0 := (missing_sheet "Angebot" (wb_Angebot wb) ++ missing_sheet "Kunde" (wb_Kunde wb)
                  ++ missing_sheet "Positionen" (wb_Positionen wb))%list in
  match wb_Angebot wb, wb_Kunde wb, wb_Positionen wb with
  | Some angebotRows, Some kundeRows, Some posRows =>
      let angebot := section_object angebotRows in
      let taxType := read_taxType angebot in
      let errs := if String.eqb taxType "" then
                    [mkErr "Angebot" (Some 2%nat) (Some "taxType")
                       "taxType ist Pflicht (z. B. „gross“ oder „net“)."] else [] in
      let kunde := section_object kundeRows in
      let customerName := trim (js_string (js_or (get kunde "name")
                                            (js_or (get kunde "Name") (JStr "")))) in
      let errs := (errs ++ if String.eqb customerName "" then
                    [mkErr "Kunde" (Some 2%nat) (Some "name") "Kundenname ist Pflicht."] else [])%list in
      let taxConditions := if nonempty taxType then Some taxType else None in
      let errs := (errs ++ match taxConditions with
                           | None => [mkErr "Angebot" (Some 2%nat) (Some "taxConditions")
                                        "taxConditions.taxType ist Pflicht."]
                           | Some _ => []
                           end)%list in
      let voucherDate := toISOString now in
      let expirationDate := toISOString (now + 30 * 24 * 3600 * 1000)%Z in
      let address := mkAddress (undef_if_empty customerName)
                       (undef_if_empty (str_field kunde "contactId" ""))
                       (undef_if_empty (str_field kunde "street" ""))
                       (undef_if_empty (str_field kunde "zip" ""))
                       (undef_if_empty (str_field kunde "city" ""))
                       (let c := str_field kunde "countryCode" "DE" in
                        if String.eqb c "" then "DE" else c)
                       (undef_if_empty (str_field kunde "contactPerson" ""))
                       (undef_if_empty (str_field kunde "email" ""))
                       (undef_if_empty (str_field kunde "phone" "")) in
      let st := pos_loop getArticleById taxType allowPriceOverride
                  (mkSt errs [] [] [] []) 0 posRows in
      let st := match lineItems st with
                | [] => push_error st (mkErr "Positionen" None None "Keine Positionen gefunden.")
                | _ => st
                end in
      let summary := mkSummary (errors st) (warnings st) (Some (byType st))
                       (Some (autoNamedLineItems st)) (Some (truthy allowPriceOverride))
                       (Some voucherDate) (Some taxType) in
      match errors st with
      | _ :: _ => mkResult false None summary
      | [] =>
          mkResult true
            (Some (mkPayload voucherDate expirationDate address (lineItems st) "EUR"
                     taxConditions "none"))
            summary
      end
  | _, _, _ => mkResult false None (mkSummary errors0 [] None None None None None)
  end.

(** How the routes resolve the option (server.js 942-943, 985-986): a boolean
    from the request body, else [ALLOW_PRICE_OVERRIDE_DEFAULT]. *)
Definition resolve_allowPriceOverride (bodyValue : jsval) (ALLOW_PRICE_OVERRIDE_DEFAULT : bool)
  : jsval :=
  match bodyValue with
  | JBool b => JBool b
  | _ => JBool ALLOW_PRICE_OVERRIDE_DEFAULT
  end.

(* ------------------------------------------------------------------ *)
(** ** Sample inputs *)

Definition no_catalog : string -> option Article := fun _ => None.

Definition angebot_net : list obj := [[("Feld", JStr "taxType"); ("Wert", JStr "net")]].
Definition kunde_acme : list obj := [[("Feld", JStr "name"); ("Wert", JStr "Acme GmbH")]].

Definition custom_row (price : jsval) : obj :=
  [("type", JStr "custom"); ("quantity", JNum (fin 5)); ("unitName", JStr "Stk");
   ("unitPriceAmount", price)].

Definition wb_of (rows : list obj) : Workbook :=
  mkWorkbook (Some angebot_net) (Some kunde_acme) (Some rows).


(* ------------------------------------------------------------------ *)
(** ** Observations used in the statements *)

(** A unit price carrying currency EUR and both amount keys. *)
Definition price_ok (up : UnitPrice) : Prop :=
  up_currency up = "EUR" /\ up_netAmount up <> None /\ up_grossAmount up <> None.

(** Shape of a pushed line item: a text item has no [unitPrice]; any other
    item has a complete one. *)
Definition item_ok (it : LineItem) : Prop :=
  (li_type it = "text" /\ li_unitPrice it = None)
  \/ (li_type it <> "text" /\ exists up, li_unitPrice it = Some up /\ price_ok up).





(** The result with its clock-derived fields recomputed for time [now]. *)
Definition restamp (now : Z) (r : Result) : Result :=
  let vd := toISOString now in
  let ed := toISOString (now + 30 * 24 * 3600 * 1000)%Z in
  mkResult (r_ok r)
    (option_map (fun p => mkPayload vd ed (p_address p) (p_lineItems p)
                            (p_totalPrice_currency p) (p_taxConditions p) (p_shippingType p))
       (r_payload r))
    (let sm := r_summary r in
     mkSummary (s_errors sm) (s_warnings sm) (s_byType sm) (s_autoNamedLineItems sm)
       (s_allowPriceOverrideUsed sm) (option_map (fun _ => vd) (s_voucherDate sm)) (s_taxType sm)).

(** Source of the price of a row with a spreadsheet price and an articleId:
    [true] for the spreadsheet price. *)
Definition spreadsheet_price_used (type : string) (allow : bool) : bool :=
  if String.eqb type "custom" then allow
  else if String.eqb type "material" || String.eqb type "service" then false
  else true.

Definition empty_st : St := mkSt [] [] [] [] [].

Definition angebot_usd : list obj :=
  [[("Feld", JStr "taxType"); ("Wert", JStr "net")];
   [("Feld", JStr "currency"); ("Wert", JStr "USD")]].

Definition sample_article : Article :=
  mkArticle (Some "T-Shirt") (Some (mkPrice (JNum (fin 3)) JUndef JUndef)).

Definition catalog_A1 : string -> option Article :=
  fun id => if String.eqb id "A1" then Some sample_article else None.

Definition article_row (type : string) : obj :=
  [("type", JStr type); ("articleId", JStr "A1"); ("quantity", JNum (fin 2));
   ("unitName", JStr "Stk"); ("unitPriceAmount", JNum (fin 5))].

(* ------------------------------------------------------------------ *)
(** ** [parseNumber] of the text parser (src/lib/parseText.js 30-35) *)

(** [s.replace(a, b)] with a one-character pattern: the first occurrence. *)
Fixpoint replace_first (a b : ascii) (s : string) : string :=
  match s with
  | EmptyString => EmptyString
  | String c r => if Ascii.eqb c a then String b r else String c (replace_first a b r)
  end.

(** [parseNumber]: [null]/[undefined] give [null]; otherwise
    [Number(String(n).trim().replace(',', '.'))], kept when finite. *)
Definition parseNumber (n : jsval) : option num :=
  match n with
  | JUndef | JNull => None
  | _ => let v := string_to_number (replace_first ","%char "."%char (trim (js_string n))) in
         if is_finite v then Some v else None
  end.

(** [parseNumberValue] (Excel import): [undefined], [null] and [""] give [NaN];
    a string has its first [','] replaced by ['.'] and is trimmed; then
    [Number(value)], kept when finite, [NaN] otherwise. *)
Definition parseNumberValue (value : jsval) : num :=
  match value with
  | JUndef | JNull | JStr EmptyString => NaN
  | JStr s =>
      let n := string_to_number (trim (replace_first ","%char "."%char s)) in
      if is_finite n then n else NaN
  | _ => let n := to_number value in if is_finite n then n else NaN
  end.

(* ------------------------------------------------------------------ *)
(** ** Access control (server.js 139-182) and the [/api/ping] report *)

(** [s.indexOf(c)] for a one-character string. *)
Fixpoint indexOf (c : ascii) (s : string) : option nat :=
  match s with
  | EmptyString => None
  | String c' r => if Ascii.eqb c c' then Some 0%nat else option_map S (indexOf c r)
  end.

(** [s.slice(n)]. *)
Definition slice_from (n : nat) (s : string) : string :=
  substring n (String.length s - n) s.

(** The environment strings ([process.env.X || '']). *)
Record AuthConfig := mkAuthConfig {
  TOOL_PASSWORD : string;
  APP_USER : string;
  APP_PASS : string
}.

(** What the middlewares read from a request: the [Authorization] header,
    [req.body?.password], [req.query?.password] and the [x-tool-password]
    header. *)
Record Request := mkRequest {
  rq_authorization : option string;
  rq_body_password : jsval;
  rq_query_password : jsval;
  rq_header_password : jsval
}.

(** [next()], the 401 [Auth required] answer of the Basic-Auth check, and
    the [UNAUTHORIZED] failure of the tool-password check. *)
Inductive AuthOutcome := Next | AuthRequired401 | ToolUnauthorized.

(** [x === s] for a string [s]. *)
Definition strict_eq_str (v : jsval) (s : string) : bool :=
  match v with JStr s' => String.eqb s' s | _ => false end.

Section Auth.
(** [Buffer.from(b64, 'base64').toString('utf8')] (Node library code). *)
Variable base64_utf8 : string -> string.

(** [parseBasicAuth] (server.js 139-150); the decoding never throws. *)
Definition parseBasicAuth (header : option string) : option (string * string) :=
  match header with
  | None => None
  | Some h =>
      if negb (nonempty h) || negb (String.prefix "Basic " h) then None else
      let decoded := base64_utf8 (slice_from 6 h) in
      match indexOf ":"%char decoded with
      | None => None
      | Some idx => Some (substring 0 idx decoded, slice_from (S idx) decoded)
      end
  end.

(** [basicAuthMiddleware] (server.js 152-158). *)
Definition basicAuthMiddleware (cfg : AuthConfig) (rq : Request) : AuthOutcome :=
  if negb (nonempty (APP_USER cfg)) || negb (nonempty (APP_PASS cfg)) then Next else
  match parseBasicAuth (rq_authorization rq) with
  | Some (user, pass) =>
      if String.eqb user (APP_USER cfg) && String.eqb pass (APP_PASS cfg) then Next
      else AuthRequired401
  | None => AuthRequired401
  end.

(** [toolPasswordMiddleware] (server.js 160-177). *)
Definition toolPasswordMiddleware (cfg : AuthConfig) (rq : Request) : AuthOutcome :=
  if negb (nonempty (TOOL_PASSWORD cfg)) then Next else
  let supplied := js_or (rq_body_password rq)
                    (js_or (rq_query_password rq) (rq_header_password rq)) in
  if strict_eq_str supplied (TOOL_PASSWORD cfg) then Next else ToolUnauthorized.

(** [authMiddleware] (server.js 179-182). *)
Definition authMiddleware (cfg : AuthConfig) (rq : Request) : AuthOutcome :=
  if nonempty (APP_USER cfg) && nonempty (APP_PASS cfg) then basicAuthMiddleware cfg rq
  else toolPasswordMiddleware cfg rq.
End Auth.

(** [passwordProtected] and [passwordMode] of [/api/ping] (server.js 793-794). *)
Definition passwordProtected (cfg : AuthConfig) : bool :=
  nonempty (TOOL_PASSWORD cfg) || (nonempty (APP_USER cfg) && nonempty (APP_PASS cfg)).

Definition passwordMode (cfg : AuthConfig) : string :=
  if nonempty (APP_USER cfg) && nonempty (APP_PASS cfg) then "basic"
  else if nonempty (TOOL_PASSWORD cfg) then "toolPassword" else "none".

(* ------------------------------------------------------------------ *)
(** ** Idempotency key of [/api/create-offer] (server.js 647-656) *)

(** The bytes fed to the SHA-256 hash by the successive [update] calls. *)
Definition hash_message (finalize allowPriceOverride : jsval) (excelData : string) : string :=
  (if truthy finalize then "1" else "0") ++ "|" ++
  (if truthy allowPriceOverride then "1" else "0") ++ "|" ++ excelData.

Section Hash.
(** [crypto.createHash('sha256')...digest('hex')] of a message. *)
Variable sha256_hex : string -> string.

Definition hashRequest (excelData : string) (allowPriceOverride finalize : jsval) : string :=
  sha256_hex (hash_message finalize allowPriceOverride excelData).
End Hash.

(* ------------------------------------------------------------------ *)
(** ** Rate limiter [TokenBucket] (server.js 187-228)

    Token counts are exact rationals; the clock readings ([Date.now()]) are
    the times of the events; a waiter (the [resolve] of an [acquire]) is
    named by a number. *)

Module TokenBucket.

Record t := mk {
  capacity : Q;
  refillPerSec : Q;
  tokens : Q;
  lastRefill : Z;
  queue : list nat;
  timer : bool
}.

(** [constructor({ capacity, refillPerSec })] at time [now]. *)
Definition create (capacity refillPerSec : Q) (now : Z) : t :=
  mk capacity refillPerSec capacity now [] false.

(** [_refill()] at time [now]. *)
Definition refill (b : t) (now : Z) : t :=
  let elapsed := inject_Z (now - lastRefill b) / 1000 in
  if Qle_bool elapsed 0 then b else
  let add := elapsed * refillPerSec b in
  mk (capacity b) (refillPerSec b) (Qmin (capacity b) (tokens b + add)) now (queue b) (timer b).

(** The [while (this.tokens >= 1 && this.queue.length)] loop: the tokens
    left, the waiters resolved (in order) and the queue left. *)
Fixpoint release (tokens : Q) (q : list nat) : Q * list nat * list nat :=
  match q with
  | [] => (tokens, [], [])
  | w :: r =>
      if Qle_bool 1 tokens then
        let '(t', rel, rest) := release (tokens - 1) r in (t', w :: rel, rest)
      else (tokens, [], q)
  end.

(** [_drain()] at time [now]: the timer is cleared, the bucket refilled,
    waiters released, and a timer armed again if some are left. *)
Definition drain (b : t) (now : Z) : t * list nat :=
  let b1 := refill b now in
  let '(tk, rel, rest) := release (tokens b1) (queue b1) in
  (mk (capacity b1) (refillPerSec b1) tk (lastRefill b1) rest
      (match rest with [] => false | _ => true end), rel).

(** [acquire()] by waiter [w] at time [now]: [queue.push], then [_drain()]. *)
Definition acquire (b : t) (now : Z) (w : nat) : t * list nat :=
  drain (mk (capacity b) (refillPerSec b) (tokens b) (lastRefill b) (queue b ++ [w])%list (timer b))
    now.

(** What can happen to the bucket: an [acquire] call or the armed timer
    firing. *)
Inductive event :=
| Acquire (now : Z) (w : nat)
| TimerFires (now : Z).

Definition step (b : t) (e : event) : t * list nat :=
  match e with
  | Acquire now w => acquire b now w
  | TimerFires now => if timer b then drain b now else (b, [])
  end.

(** A sequence of events: the final bucket and all waiters resolved, in
    order. *)
Fixpoint run (b : t) (es : list event) : t * list nat :=
  match es with
  | [] => (b, [])
  | e :: r =>
      let '(b1, rel1) := step b e in
      let '(b2, rel2) := run b1 r in
      (b2, (rel1 ++ rel2)%list)
  end.

Definition event_time (e : event) : Z :=
  match e with Acquire now _ => now | TimerFires now => now end.

Definition acquired (es : list event) : list nat :=
  flat_map (fun e => match e with Acquire _ w => [w] | TimerFires _ => [] end) es.

(** The bucket invariant: a non-negative rate and tokens in [0, capacity]. *)
Definition bounded (b : t) : Prop :=
  0 <= refillPerSec b /\ 0 <= tokens b /\ tokens b <= capacity b.

(** The waiters an event enqueues. *)
Definition acq (e : event) : list nat :=
  match e with Acquire _ w => [w] | TimerFires _ => [] end.

(** The state [_drain()] leaves behind: nothing can be released any more, and
    a timer is armed exactly when waiters are left. *)
Definition settled (b : t) : Prop :=
  (queue b = [] \/ tokens b < 1) /\ (timer b = true <-> queue b <> []).

End TokenBucket.

(* ------------------------------------------------------------------ *)
(** ** Retries of [lexwareRequest] (server.js 241-271) *)

Section Retry.
(** The responses of the API: [answer k] is the response to attempt [k],
    [random k] the value of [Math.random()] after attempt [k]. *)
Variable Resp : Type.
Variable status : Resp -> Z.
Variable answer : nat -> Resp.
Variable random : nat -> Q.

(** [Math.min(12000, 800 * Math.pow(2, attempt) + Math.floor(Math.random() * 250))]. *)
Definition backoff (attempt : nat) : Z :=
  Z.min 12000 (800 * 2 ^ Z.of_nat attempt + Qfloor (random attempt * 250)).

(** The value returned: a response of the API, or the object
    [{ status: 429, data: { message: 'Rate limit exceeded (client retries
    exhausted)' } }]. *)
Inductive LexOut := Server (r : Resp) | RetriesExhausted.

Record LexRun := mkLexRun {
  lr_result : LexOut;
  lr_requests : nat;
  lr_waits : list Z
}.

(** Attempts [attempt], [attempt + 1], ... while [left] remain. *)
Fixpoint attempts (attempt left : nat) : LexRun :=
  match left with
  | O => mkLexRun RetriesExhausted 0 []
  | S l =>
      let res := answer attempt in
      if negb (Z.eqb (status res) 429) then mkLexRun (Server res) 1 []
      else
        let r := attempts (S attempt) l in
        mkLexRun (lr_result r) (S (lr_requests r)) (backoff attempt :: lr_waits r)
  end.

Definition maxRetries : nat := 5.

(** [for (let attempt = 0; attempt <= maxRetries; attempt++)]. *)
Definition lexwareRequest : LexRun := attempts 0 (S maxRetries).
End Retry.

(* ------------------------------------------------------------------ *)
(** ** Article caches (server.js 317-373) *)

(** [articleCache.ttlMs = TEMPLATE_TTL_MS = 10 * 60 * 1000]. *)
Definition ttlMs : Z := 10 * 60 * 1000.

(** A JS [Map] with string keys: [get], and [set] (in place or appended). *)
Fixpoint map_get {V : Type} (m : list (string * V)) (k : string) : option V :=
  match m with
  | [] => None
  | (k', v) :: r => if String.eqb k k' then Some v else map_get r k
  end.

Fixpoint map_set {V : Type} (m : list (string * V)) (k : string) (v : V) : list (string * V) :=
  match m with
  | [] => [(k, v)]
  | (k', v') :: r => if String.eqb k k' then (k', v) :: r else (k', v') :: map_set r k v
  end.

Definition is_2xx (st : Z) : bool := (200 <=? st)%Z && (st <? 300)%Z.

Section ArticleById.
(** The body of a [GET /v1/articles/{id}] answer. *)
Variable Data : Type.

(** The result ([None]: [null]), the new [articleCache.byId] (id to
    [{ _ts, data }]) and whether a request was sent. *)
Record Lookup := mkLookup {
  lk_result : option Data;
  lk_cache : list (string * (Z * Data));
  lk_requested : bool
}.

(** [getArticleById] (server.js 324-341): [now0] is the clock at the cache
    check, [answer] the status and body of the request (used only when it is
    sent), [now1] the clock when it has returned. *)
Definition getArticleById (byId : list (string * (Z * Data))) (articleId : string)
  (now0 : Z) (answer : Z * Data) (now1 : Z) : Lookup :=
  let fetch :=
    let '(st, d) := answer in
    if is_2xx st then mkLookup (Some d) (map_set byId articleId (now1, d)) true
    else mkLookup None byId true in
  if negb (nonempty articleId) then mkLookup None byId false else
  match map_get byId articleId with
  | Some (ts, d) => if (now0 - ts <? ttlMs)%Z then mkLookup (Some d) byId false else fetch
  | None => fetch
  end.
End ArticleById.

Section ArticleList.
(** An article of the list answers. *)
Variable Art : Type.

(** [res.data] of a page: [content] ([None] when it is not an array) and
    [last]. *)
Record PageData := mkPageData {
  pd_content : option (list Art);
  pd_last : jsval
}.

(** A page answer; [pg_data] is [None] when [res.data] is falsy. *)
Record PageResp := mkPageResp {
  pg_status : Z;
  pg_data : option PageData
}.

(** The answer to the request for page [p]. *)
Variable page_answer : nat -> PageResp.

(** The [while (true)] loop from page [page]: the articles collected and the
    number of requests sent. [fuel] bounds the pages left; from page 0 with
    fuel 101 the loop always leaves by one of its [break]s. *)
Fixpoint fetch_pages (fuel page : nat) : list Art * nat :=
  match fuel with
  | O => ([], 0%nat)
  | S f =>
      let res := page_answer page in
      match pg_data res with
      | Some d =>
          if negb (is_2xx (pg_status res)) then ([], 1%nat) else
          let content := match pd_content d with Some c => c | None => [] end in
          if negb (not_strict_true (pd_last d)) then (content, 1%nat)
          else match content with
               | [] => (content, 1%nat)
               | _ :: _ =>
                   if (100 <? S page)%nat then (content, 1%nat)
                   else let '(rest, n) := fetch_pages f (S page) in ((content ++ rest)%list, S n)
               end
      | None => ([], 1%nat)
      end
  end.

(** The list part of [articleCache]: [list] ([None]: [null]) and
    [fetchedAt]. *)
Record ListCache := mkListCache {
  lc_list : option (list Art);
  lc_fetchedAt : Z
}.

(** [listAllArticlesCached] (server.js 343-373): [now0] is the clock at the
    cache check, [now1] the clock after the loop; the result, the new cache
    and the number of requests. An array is truthy even when empty. *)
Definition listAllArticlesCached (c : ListCache) (now0 now1 : Z) : list Art * ListCache * nat :=
  match lc_list c with
  | Some l => if (now0 - lc_fetchedAt c <? ttlMs)%Z then (l, c, 0%nat) else
                let '(all, n) := fetch_pages 101 0 in (all, mkListCache (Some all) now1, n)
  | None => let '(all, n) := fetch_pages 101 0 in (all, mkListCache (Some all) now1, n)
  end.
End ArticleList.

(* ------------------------------------------------------------------ *)
(** ** Sanity checks on concrete inputs *)

Example numOrNull_dot : numOrNull (JStr "6.9") = Some (fin (69 # 10)).
Proof. reflexivity. Qed.

Example numOrNull_misc :
  numOrNull (JStr " 1e3 ") = Some (fin 1000) /\ numOrNull (JStr "0x1F") = Some (fin 31)
  /\ numOrNull (JStr "abc") = None /\ numOrNull (JStr " ") = Some (fin 0)
  /\ numOrNull (JStr "-.5") = Some (fin (-1 # 2)) /\ numOrNull (JStr "Infinity") = None.
Proof. repeat split; reflexivity. Qed.

Example round_trip_net :
  buildUnitPriceFromExcel "net" (Some (fin 10)) (Some (fin 19))
  = Some (mkUnitPrice "EUR" (Some (fin 10)) (Some (fin (119 # 10))) (fin 19)).
Proof. vm_compute. reflexivity. Qed.

Example iso_epoch : toISOString 0 = "1970-01-01T00:00:00.000Z".
Proof. reflexivity. Qed.

Example build_ok :
  option_map (fun p => length (p_lineItems p))
    (r_payload (parseExcelAndBuildQuotationPayload no_catalog 0
                  (wb_of [custom_row (JNum (fin (69 # 10)))]) (JBool false)))
  = Some 1%nat.
Proof. vm_compute. reflexivity. Qed.

Example numOrNull_comma : numOrNull (JStr "6,9") = None.
Proof. reflexivity. Qed.

Example num_to_string_ex :
  num_to_string (fin (69 # 10)) = "6.9" /\ num_to_string (fin (-12)) = "-12".
Proof. split; reflexivity. Qed.

Example round_trip_gross :
  buildUnitPriceFromExcel "gross" (Some (fin (119 # 10))) (Some (fin 19))
  = Some (mkUnitPrice "EUR" (Some (fin 10)) (Some (fin (119 # 10))) (fin 19)).
Proof. vm_compute. reflexivity. Qed.

Example iso_2023 : toISOString 1700000000000 = "2023-11-14T22:13:20.000Z".
Proof. vm_compute. reflexivity. Qed.

(* ------------------------------------------------------------------ *)
(** ** Unit prices *)

Lemma netgross_price_ok n g t up :
  buildUnitPriceFromNetGross n g t = Some up -> price_ok up.
Proof.
  unfold buildUnitPriceFromNetGross.
  destruct n, g; cbn; intros H; try discriminate; inversion H; subst;
    repeat split; cbn; discriminate.
Qed.

Lemma excel_price_ok tt a r up : buildUnitPriceFromExcel tt a r = Some up -> price_ok up.
Proof.
  unfold buildUnitPriceFromExcel.
  destruct (negb _); [discriminate|].
  destruct (String.eqb _ _); apply netgross_price_ok.
Qed.

Lemma article_price_ok a up : buildUnitPriceFromArticle a = Some up -> price_ok up.
Proof.
  unfold buildUnitPriceFromArticle.
  destruct a as [[t [p|]]|]; try discriminate. apply netgross_price_ok.
Qed.

(* ------------------------------------------------------------------ *)
(** ** One row of the loop *)

(** Case analysis on the control flow of an unfolded [row_step] held in the
    hypothesis [E]; the [if]s that only choose a string are left alone. *)
Ltac split_row E :=
  repeat match type of E with
  | context [if ?b then ?x else _] =>
      let T := type of x in
      lazymatch T with
      | string => fail
      | option string => fail
      | _ => destruct b eqn:?; cbn in E
      end
  | context [match ?x with Some _ => _ | None => _ end] => destruct x eqn:?; cbn in E
  end.

(** Every row leaves the state unchanged when blank, and otherwise appends
    exactly one Positionen error for its row or exactly one line item; the
    error concerns the field [type] exactly when the type is empty. *)
Lemma row_step_shape cat tt allow st i row :
  let st' := row_step cat tt allow st i row in
  (hasAny (read_row row) = false /\ st' = st) \/
  (hasAny (read_row row) = true /\ lineItems st' = lineItems st /\
     exists e, errors st' = (errors st ++ [e])%list /\ e_sheet e = "Positionen"
               /\ e_row e = Some (i + 2)%nat
               /\ (e_field e = Some "type" <-> rf_type (read_row row) = "")) \/
  (hasAny (read_row row) = true /\ errors st' = errors st /\
     exists it, lineItems st' = (lineItems st ++ [it])%list /\ item_ok it).
Proof.
  cbv zeta. remember (row_step cat tt allow st i row) as st' eqn:E.
  unfold row_step in E. revert E. generalize (read_row row) as f. intros f E.
  destruct (hasAny f) eqn:Hany; cbn [negb] in E.
  2:{ left; auto. }
  right.
  split_row E; subst st'; cbn.
  all: first
    [ left; split; [reflexivity|]; split; [reflexivity|];
      eexists; split; [reflexivity|]; cbn; split; [reflexivity|]; split; [reflexivity|];
      split; intro Hf;
      [ first [ apply String.eqb_eq; assumption | discriminate Hf ]
      | first [ reflexivity
              | match goal with
                | H : String.eqb (rf_type _) "" = false |- _ =>
                    apply String.eqb_neq in H; contradiction
                end ] ]
    | right; split; [reflexivity|]; split; [reflexivity|];
      eexists; split; [reflexivity|];
      first [ left; split; reflexivity
            | right; split;
              [ apply String.eqb_neq; assumption
              | eexists; split; [reflexivity|];
                eauto using excel_price_ok, article_price_ok ] ] ].
Qed.

(* ------------------------------------------------------------------ *)
(** ** The loop *)



Lemma pos_loop_items_ok cat tt allow rows : forall st i,
  Forall item_ok (lineItems st) ->
  Forall item_ok (lineItems (pos_loop cat tt allow st i rows)).
Proof.
  induction rows as [|row rows IH]; intros st i H; cbn [pos_loop]; [exact H|].
  apply IH.
  destruct (row_step_shape cat tt allow st i row)
    as [[_ Heq] | [[_ [Hl _]] | [_ [_ [it [Hl Hok]]]]]].
  - rewrite Heq. exact H.
  - rewrite Hl. exact H.
  - rewrite Hl. apply Forall_app. split; [exact H | constructor; [exact Hok | constructor]].
Qed.


Lemma not_strict_true_resolve body dflt :
  not_strict_true (resolve_allowPriceOverride body dflt)
  = negb (match body with JBool b => b | _ => dflt end).
Proof. destruct body as [| |[]| |]; destruct dflt; reflexivity. Qed.

(* ------------------------------------------------------------------ *)
(** ** The builder *)

(** A payload is only returned when all three sheets exist and the row loop,
    run from a state without line items, ends without any error; its line
    items are those of the loop. *)
Lemma build_success cat now wb allow p :
  r_payload (parseExcelAndBuildQuotationPayload cat now wb allow) = Some p ->
  exists a k ps st0,
    wb = mkWorkbook (Some a) (Some k) (Some ps) /\ lineItems st0 = [] /\
    errors (pos_loop cat (read_taxType (section_object a)) allow st0 0 ps) = [] /\
    p_lineItems p = lineItems (pos_loop cat (read_taxType (section_object a)) allow st0 0 ps) /\
    p_totalPrice_currency p = "EUR".
Proof.
  unfold parseExcelAndBuildQuotationPayload.
  destruct wb as [[a|] [k|] [ps|]]; cbn -[pos_loop toISOString section_object read_taxType trim];
    try discriminate.
  match goal with |- context [pos_loop ?c ?t ?al ?s0 ?j ?rows] =>
    remember s0 as st0 eqn:E0; remember (pos_loop c t al st0 j rows) as st eqn:Est end.
  destruct (lineItems st) eqn:L; cbn [push_error errors]; destruct (errors st) eqn:Er;
    cbn; intro H; try discriminate.
  injection H as <-.
  exists a, k, ps, st0. rewrite <- Est. repeat split; auto.
  subst st0. reflexivity.
Qed.

(* ------------------------------------------------------------------ *)
(** ** Claims *)

(** C1 (numeric parsing): [numOrNull] converts with [Number()], which gives
    NaN for the German decimal string "6,9"; the value is then treated as
    absent, so a custom row priced "6,9" is rejected with the error "Preis ist
    Pflicht" instead of being priced 6.9. *)
Theorem comma_decimal_price_dropped :
  numOrNull (JStr "6,9") = None /\
  let r := parseExcelAndBuildQuotationPayload no_catalog 0
             (wb_of [custom_row (JStr "6,9")]) (JBool false) in
  r_payload r = None /\
  s_errors (r_summary r) =
    [pos_err 2 "unitPriceAmount" "Preis ist Pflicht, wenn keine articleId gesetzt ist.";
     mkErr "Positionen" None None "Keine Positionen gefunden."].
Proof. split; [reflexivity | vm_compute; split; reflexivity]. Qed.

(** Counterexample to C2: a custom row priced 5 (net) yields a line item whose
    unitPrice has both netAmount (5) and grossAmount (5.95). *)
Lemma custom_item_has_net_and_gross :
  option_map (fun p => map (fun it => option_map (fun up => (up_netAmount up, up_grossAmount up))
                                        (li_unitPrice it)) (p_lineItems p))
    (r_payload (parseExcelAndBuildQuotationPayload no_catalog 0
                  (wb_of [custom_row (JNum (fin 5))]) (JBool false)))
  = Some [Some (Some (fin 5), Some (fin (119 # 20)))].
Proof. vm_compute. reflexivity. Qed.

(** C2 (amended): in every payload, every non-text line item has a unitPrice
    in which both netAmount and grossAmount are present. *)
Theorem non_text_items_carry_net_and_gross cat now wb allow p :
  r_payload (parseExcelAndBuildQuotationPayload cat now wb allow) = Some p ->
  forall it, In it (p_lineItems p) -> li_type it <> "text" ->
  exists up, li_unitPrice it = Some up /\ up_netAmount up <> None /\ up_grossAmount up <> None.
Proof.
  intros H it Hin Ht.
  destruct (build_success cat now wb allow p H) as (a & k & ps & st0 & _ & H0 & _ & Hl & _).
  assert (Hall : Forall item_ok (p_lineItems p)).
  { rewrite Hl. apply pos_loop_items_ok. rewrite H0. constructor. }
  rewrite Forall_forall in Hall.
  destruct (Hall it Hin) as [[Htxt _] | [_ (up & Hup & _ & Hn & Hg)]].
  - contradiction.
  - eauto.
Qed.

Lemma non_text_items_carry_net_and_gross_witness :
  exists p, r_payload (parseExcelAndBuildQuotationPayload no_catalog 0
                         (wb_of [custom_row (JNum (fin 5))]) (JBool false)) = Some p /\
    forall it, In it (p_lineItems p) -> li_type it <> "text" ->
    exists up, li_unitPrice it = Some up /\ up_netAmount up <> None /\ up_grossAmount up <> None.
Proof.
  destruct (r_payload (parseExcelAndBuildQuotationPayload no_catalog 0
                         (wb_of [custom_row (JNum (fin 5))]) (JBool false))) as [p|] eqn:Hp.
  - exists p. split; [reflexivity|].
    exact (non_text_items_carry_net_and_gross no_catalog 0 _ (JBool false) p Hp).
  - vm_compute in Hp. discriminate Hp.
Defined.

(** C3: the builder returns a payload exactly when its error list is empty;
    otherwise the payload is null. *)
Theorem payload_iff_no_errors cat now wb allow :
  let r := parseExcelAndBuildQuotationPayload cat now wb allow in
  (exists p, r_payload r = Some p) <-> s_errors (r_summary r) = [].
Proof.
  intros r; subst r; unfold parseExcelAndBuildQuotationPayload.
  destruct wb as [[a|] [k|] [ps|]]; cbn -[pos_loop toISOString section_object read_taxType trim].
  all: try (split; [intros [? H]; discriminate | intros H; discriminate]).
  match goal with |- context [match errors ?s with _ => _ end] => destruct (errors s) eqn:E end.
  all: cbn; split; [intros [? H] | intros H]; try discriminate; eauto.
Qed.

(** Counterexample to C4: the same workbook built at two clock readings gives
    two different results (voucherDate is the current time). *)
Lemma build_differs_with_clock :
  parseExcelAndBuildQuotationPayload no_catalog 0 (wb_of [custom_row (JNum (fin 5))]) (JBool false)
  <> parseExcelAndBuildQuotationPayload no_catalog 86400000
       (wb_of [custom_row (JNum (fin 5))]) (JBool false).
Proof.
  intros H. apply (f_equal (fun r => option_map p_voucherDate (r_payload r))) in H.
  vm_compute in H. discriminate H.
Qed.

(** C4 (amended): the builder is a function of the workbook, the catalog
    answers, the option and the clock; the clock enters only through
    voucherDate and expirationDate (payload) and voucherDate (summary): the
    result at time [now2] is the result at any time [now1] with these dates
    recomputed. *)
Theorem build_depends_on_clock_only_via_dates cat now1 now2 wb allow :
  parseExcelAndBuildQuotationPayload cat now2 wb allow
  = restamp now2 (parseExcelAndBuildQuotationPayload cat now1 wb allow).
Proof.
  unfold parseExcelAndBuildQuotationPayload.
  destruct wb as [[a|] [k|] [ps|]]; cbn -[pos_loop toISOString section_object read_taxType trim];
    try reflexivity.
  match goal with |- context [pos_loop ?c ?t ?al ?s0 ?j ?rows] =>
    remember (pos_loop c t al s0 j rows) as st eqn:Est end.
  destruct (lineItems st); cbn [push_error errors]; destruct (errors st); reflexivity.
Qed.




(** Counterexample to C6: a material row without articleId and without
    quantity gets a [qty] error and no [articleId] error. *)
Lemma material_row_without_quantity :
  map e_field (s_errors (r_summary (parseExcelAndBuildQuotationPayload no_catalog 0
                                      (wb_of [[("type", JStr "material")]]) (JBool false))))
  = [Some "qty"; None].
Proof. vm_compute. reflexivity. Qed.

(** C6 (amended): a row of type material with an empty articleId adds no line
    item and exactly one Positionen error for its row; the error is about
    [qty] when the quantity is not positive, else about [unitName] when the
    unit is empty, else about [articleId]. *)
Theorem material_without_articleId_one_error cat tt allow st i row :
  let f := read_row row in
  rf_type f = "material" -> rf_articleId f = "" ->
  lineItems (row_step cat tt allow st i row) = lineItems st /\
  exists e, errors (row_step cat tt allow st i row) = (errors st ++ [e])%list
    /\ e_sheet e = "Positionen" /\ e_row e = Some (i + 2)%nat
    /\ e_field e = Some (if negb (gt0 (rf_qty f)) then "qty"
                         else if String.eqb (rf_unitName f) "" then "unitName"
                         else "articleId").
Proof.
  cbv zeta. intros H1 H2. unfold row_step. cbv zeta.
  assert (HA : hasAny (read_row row) = true) by (unfold hasAny; rewrite H1; reflexivity).
  rewrite HA, H1, H2. cbn [negb String.eqb Ascii.eqb Bool.eqb andb orb].
  destruct (gt0 (rf_qty (read_row row))); cbn [negb];
    [destruct (String.eqb (rf_unitName (read_row row)) "")|];
    (split; [reflexivity | eexists; repeat split]).
Qed.

Lemma material_without_articleId_one_error_witness :
  let row := [("type", JStr "material"); ("quantity", JNum (fin 2)); ("unitName", JStr "Stk")] in
  lineItems (row_step no_catalog "net" (JBool false) empty_st 0 row) = [] /\
  map e_field (errors (row_step no_catalog "net" (JBool false) empty_st 0 row))
  = [Some "articleId"].
Proof.
  cbv zeta.
  destruct (material_without_articleId_one_error no_catalog "net" (JBool false) empty_st 0
              [("type", JStr "material"); ("quantity", JNum (fin 2)); ("unitName", JStr "Stk")])
    as [Hl (e & He & _ & _ & Hf)]; [reflexivity | reflexivity |].
  split; [exact Hl|]. rewrite He. cbn. rewrite Hf. reflexivity.
Defined.

(** Counterexample to C7: a row of the unrecognised type "foo" gets no error
    and becomes a line item of type "foo". *)
Lemma unknown_type_row_emitted :
  let r := parseExcelAndBuildQuotationPayload no_catalog 0
             (wb_of [[("type", JStr "foo"); ("quantity", JNum (fin 1)); ("unitName", JStr "Stk");
                      ("unitPriceAmount", JNum (fin 5))]]) (JBool false) in
  s_errors (r_summary r) = [] /\
  option_map (fun p => map li_type (p_lineItems p)) (r_payload r) = Some ["foo"].
Proof. vm_compute. split; reflexivity. Qed.

(** C7 (amended): a non-blank row with a missing (empty) type gets exactly one
    error, with field [type], and adds nothing else (no line item); a row with
    a non-empty type never gets an error with field [type], whatever the type
    (unrecognised types are not rejected). *)
Theorem type_checked_only_for_presence cat tt allow st i row :
  let f := read_row row in
  (hasAny f = true -> rf_type f = "" ->
     row_step cat tt allow st i row = push_error st (pos_err (i + 2) "type" "type ist Pflicht.")) /\
  (rf_type f <> "" -> forall e, In e (errors (row_step cat tt allow st i row)) ->
     e_field e = Some "type" -> In e (errors st)).
Proof.
  cbv zeta. split.
  - intros Ha Ht. unfold row_step. cbv zeta. rewrite Ha, Ht. reflexivity.
  - intros Ht e Hin Hf.
    destruct (row_step_shape cat tt allow st i row)
      as [[_ Heq] | [[_ [_ [e' [He [_ [_ Hiff]]]]]] | [_ [He _]]]].
    + rewrite Heq in Hin. exact Hin.
    + rewrite He in Hin. apply in_app_or in Hin. destruct Hin as [Hin | [<- | []]].
      * exact Hin.
      * apply Hiff in Hf. contradiction.
    + rewrite He in Hin. exact Hin.
Qed.

Lemma type_checked_only_for_presence_witness :
  row_step no_catalog "net" (JBool false) empty_st 0 [("name", JStr "x")]
  = push_error empty_st (pos_err 2 "type" "type ist Pflicht.").
Proof.
  apply (proj1 (type_checked_only_for_presence no_catalog "net" (JBool false) empty_st 0
                  [("name", JStr "x")])); reflexivity.
Defined.

(** Counterexample to C8: a service row with an articleId and its own price,
    built with the override flag [true], is still priced from the catalog
    (net 3), not from the spreadsheet (5). *)
Lemma service_row_ignores_override :
  option_map (fun p => map (fun it => option_map up_netAmount (li_unitPrice it)) (p_lineItems p))
    (r_payload (parseExcelAndBuildQuotationPayload catalog_A1 0
                  (wb_of [article_row "service"]) (JBool true)))
  = Some [Some (Some (fin 3))].
Proof. vm_compute. reflexivity. Qed.

(** C8 (amended): for a row that reaches pricing with an articleId found in
    the catalog and its own price, the effective override flag (the boolean
    from the request body, else the configured default) decides the price
    only for type custom (flag true: spreadsheet price, flag false: catalog
    price); types material and service always take the catalog price, and
    any other type always takes the spreadsheet price. The row appends at
    most one line item, whose unitPrice is the price so chosen. *)
Theorem price_override_decides_only_custom cat tt st i row (body : jsval) (dflt : bool) a amt :
  let f := read_row row in
  let allow := resolve_allowPriceOverride body dflt in
  let effective := match body with JBool b => b | _ => dflt end in
  let rate := match rf_taxRatePercentage f with Some r => r | None => fin 19 end in
  rf_type f <> "" -> rf_type f <> "text" -> gt0 (rf_qty f) = true -> rf_unitName f <> "" ->
  rf_articleId f <> "" -> cat (rf_articleId f) = Some a -> rf_unitPriceAmount f = Some amt ->
  exists extra,
    lineItems (row_step cat tt allow st i row) = (lineItems st ++ extra)%list /\
    map li_unitPrice extra =
      match (if spreadsheet_price_used (rf_type f) effective
             then buildUnitPriceFromExcel tt (Some amt) (Some rate)
             else buildUnitPriceFromArticle (Some a)) with
      | Some up => [Some up] | None => [] end.
Proof.
  cbv zeta. intros H1 H2 H3 H4 H5 H6 H7.
  remember (row_step cat tt (resolve_allowPriceOverride body dflt) st i row) as st' eqn:E.
  unfold row_step in E. cbv zeta in E. unfold canUseExcelPrice, spreadsheet_price_used in *.
  rewrite not_strict_true_resolve in E.
  revert E H1 H2 H3 H4 H5 H6 H7. generalize (read_row row) as f.
  intros f E H1 H2 H3 H4 H5 H6 H7.
  assert (HA : hasAny f = true)
    by (unfold hasAny, nonempty; apply String.eqb_neq in H1; rewrite H1; reflexivity).
  unfold nonempty in E.
  apply String.eqb_neq in H1, H2, H4, H5.
  rewrite HA, H1, H2, H3, H4, H5, H6, H7 in E. cbn [negb andb orb] in E.
  revert E.
  destruct (String.eqb_spec (rf_type f) "custom") as [Hc|Hc];
  [ rewrite Hc
  | destruct (String.eqb_spec (rf_type f) "material") as [Hm|Hm];
    [ rewrite Hm
    | destruct (String.eqb_spec (rf_type f) "service") as [Hs|Hs];
      [ rewrite Hs | idtac ] ] ];
  destruct (match body with JBool b => b | _ => dflt end);
  destruct (rf_discountPercent f);
  cbn [negb andb orb String.eqb Ascii.eqb Bool.eqb]; intro E;
  split_row E; subst st'; cbn;
  (exists []; split; [rewrite app_nil_r; reflexivity|]) || (eexists; split; [reflexivity|]);
  cbn; repeat match goal with H : ?x = _ |- context [?x] => rewrite H end; reflexivity.
Qed.

Lemma price_override_decides_only_custom_witness :
  let f := read_row (article_row "custom") in
  let allow := resolve_allowPriceOverride (JBool true) false in
  let effective := true in
  let rate := match rf_taxRatePercentage f with Some r => r | None => fin 19 end in
  exists extra,
    lineItems (row_step catalog_A1 "net" allow empty_st 0 (article_row "custom"))
    = (lineItems empty_st ++ extra)%list /\
    map li_unitPrice extra =
      match (if spreadsheet_price_used (rf_type f) effective
             then buildUnitPriceFromExcel "net" (Some (fin 5)) (Some rate)
             else buildUnitPriceFromArticle (Some sample_article)) with
      | Some up => [Some up] | None => [] end.
Proof.
  apply (price_override_decides_only_custom catalog_A1 "net" empty_st 0 (article_row "custom")
           (JBool true) false sample_article (fin 5)); vm_compute; congruence.
Defined.

(** C9: a row that reaches the catalog lookup (type present and not text,
    positive quantity, unit given, non-empty articleId) and whose lookup
    yields no article gets exactly one error, with field [articleId] and the
    message naming the id, besides the per-type tally; no line item, warning
    or auto-name entry is added, whatever price the row carries. *)
Theorem catalog_miss_is_row_error cat tt allow st i row :
  let f := read_row row in
  rf_type f <> "" -> rf_type f <> "text" -> gt0 (rf_qty f) = true -> rf_unitName f <> "" ->
  rf_articleId f <> "" -> cat (rf_articleId f) = None ->
  row_step cat tt allow st i row =
    push_error (bump_type st (rf_type f))
      (pos_err (i + 2) "articleId"
         ("Artikel konnte nicht geladen werden (articleId=" ++ rf_articleId f ++ ")."))%string.
Proof.
  cbv zeta. intros H1 H2 H3 H4 H5 H6.
  remember (row_step cat tt allow st i row) as st' eqn:E.
  unfold row_step in E. revert E H1 H2 H3 H4 H5 H6. generalize (read_row row) as f.
  intros f E H1 H2 H3 H4 H5 H6.
  cbv zeta in E. unfold nonempty in E.
  assert (HA : hasAny f = true)
    by (unfold hasAny, nonempty; apply String.eqb_neq in H1; rewrite H1; reflexivity).
  apply String.eqb_neq in H1, H2, H4, H5.
  rewrite HA, H1, H2, H3, H4, H5, andb_false_r, H6 in E.
  subst st'. reflexivity.
Qed.

Lemma catalog_miss_is_row_error_witness :
  row_step no_catalog "net" (JBool true) empty_st 0 (article_row "custom") =
    push_error (bump_type empty_st "custom")
      (pos_err 2 "articleId" "Artikel konnte nicht geladen werden (articleId=A1).").
Proof.
  apply (catalog_miss_is_row_error no_catalog "net" (JBool true) empty_st 0 (article_row "custom"));
    vm_compute; congruence.
Defined.

(** C10: a payload, when built, has total-price currency "EUR" and every
    unitPrice of its line items has currency "EUR"; the Angebot sheet enters
    the build only through its taxType, so any other entry there (a currency
    row, for instance) changes nothing. *)
Theorem currency_constant_EUR cat now a k ps allow p :
  r_payload (parseExcelAndBuildQuotationPayload cat now
               (mkWorkbook (Some a) (Some k) (Some ps)) allow) = Some p ->
  p_totalPrice_currency p = "EUR" /\
  (forall it up, In it (p_lineItems p) -> li_unitPrice it = Some up -> up_currency up = "EUR") /\
  (forall a', read_taxType (section_object a') = read_taxType (section_object a) ->
     parseExcelAndBuildQuotationPayload cat now (mkWorkbook (Some a') (Some k) (Some ps)) allow
     = parseExcelAndBuildQuotationPayload cat now (mkWorkbook (Some a) (Some k) (Some ps)) allow).
Proof.
  intros H.
  destruct (build_success _ _ _ _ _ H) as (a0 & k0 & ps0 & st0 & Hwb & H0 & _ & Hl & Hc).
  injection Hwb as <- <- <-.
  split; [exact Hc|]. split.
  - intros it up Hin Hup.
    assert (Hall : Forall item_ok (p_lineItems p)).
    { rewrite Hl. apply pos_loop_items_ok. rewrite H0. constructor. }
    rewrite Forall_forall in Hall. destruct (Hall it Hin) as [[_ Hn] | [_ (up' & Hs & Hok & _)]].
    + congruence.
    + rewrite Hup in Hs. injection Hs as <-. exact Hok.
  - intros a' Ht. unfold parseExcelAndBuildQuotationPayload. cbn [wb_Angebot wb_Kunde wb_Positionen].
    rewrite Ht. reflexivity.
Qed.

Lemma currency_constant_EUR_witness :
  exists p,
    r_payload (parseExcelAndBuildQuotationPayload catalog_A1 0
                 (mkWorkbook (Some angebot_net) (Some kunde_acme) (Some [article_row "service"]))
                 (JBool false)) = Some p /\
    p_totalPrice_currency p = "EUR" /\
    parseExcelAndBuildQuotationPayload catalog_A1 0
      (mkWorkbook (Some angebot_usd) (Some kunde_acme) (Some [article_row "service"])) (JBool false)
    = parseExcelAndBuildQuotationPayload catalog_A1 0
        (mkWorkbook (Some angebot_net) (Some kunde_acme) (Some [article_row "service"])) (JBool false).
Proof.
  destruct (r_payload (parseExcelAndBuildQuotationPayload catalog_A1 0
                 (mkWorkbook (Some angebot_net) (Some kunde_acme) (Some [article_row "service"]))
                 (JBool false))) as [p|] eqn:Hp.
  - exists p. split; [reflexivity|].
    destruct (currency_constant_EUR catalog_A1 0%Z angebot_net kunde_acme [article_row "service"]
                (JBool false) p Hp) as [Hc [_ Ha]].
    split; [exact Hc|]. apply Ha. vm_compute. reflexivity.
  - vm_compute in Hp. discriminate Hp.
Defined.

(* ------------------------------------------------------------------ *)
(** ** Further properties of the server code *)

Import TokenBucket.

Lemma release_spec tk q tk' rel rest :
  release tk q = (tk', rel, rest) ->
  q = (rel ++ rest)%list /\ tk' == tk - inject_Z (Z.of_nat (length rel)) /\
  (rest = [] \/ tk' < 1) /\ (0 <= tk -> 0 <= tk').
Proof.
  revert tk tk' rel rest. induction q as [|w r IH]; intros tk tk' rel rest H; cbn in H.
  - injection H as <- <- <-. cbn. split; [reflexivity|]. split; [ring|]. split; [left; reflexivity|auto].
  - destruct (Qle_bool 1 tk) eqn:E.
    + apply Qle_bool_iff in E.
      destruct (release (tk - 1) r) as [[t1 rel1] rest1] eqn:E1.
      injection H as <- <- <-.
      destruct (IH _ _ _ _ E1) as (Hq & Ht & Hr & Hp).
      split; [cbn; congruence|]. split.
      * rewrite Ht. cbn [length]. rewrite Nat2Z.inj_succ, <- Z.add_1_r, inject_Z_plus. ring.
      * split; [exact Hr|]. intros _. apply Hp. lra.
    + injection H as <- <- <-. split; [reflexivity|]. split; [cbn; ring|].
      split; [right|auto].
      apply Qnot_le_lt. intro C. apply Qle_bool_iff in C. congruence.
Qed.

Lemma inject_Z_sub (x y : Z) : inject_Z (x - y) = inject_Z x - inject_Z y.
Proof. unfold Z.sub, Qminus. rewrite inject_Z_plus, inject_Z_opp. reflexivity. Qed.

Lemma refill_spec b now :
  let b' := refill b now in
  capacity b' = capacity b /\ refillPerSec b' = refillPerSec b /\ queue b' = queue b /\
  timer b' = timer b /\
  (b' = b \/
   ((lastRefill b < now)%Z /\ lastRefill b' = now /\
    tokens b' = Qmin (capacity b)
                  (tokens b + inject_Z (now - lastRefill b) / 1000 * refillPerSec b))).
Proof.
  cbv zeta. unfold refill. destruct (Qle_bool _ 0) eqn:E.
  - repeat split; auto.
  - cbn. repeat split; auto. right. split; [|split; reflexivity].
    destruct (Z.lt_ge_cases (lastRefill b) now) as [H|H]; [exact H|].
    exfalso. assert (Hq : inject_Z (now - lastRefill b) / 1000 <= 0).
    { assert (inject_Z (now - lastRefill b) <= 0).
      { change 0 with (inject_Z 0). rewrite <- Zle_Qle. lia. }
      apply Qle_shift_div_r; [reflexivity|]. lra. }
    apply Qle_bool_iff in Hq. congruence.
Qed.

Lemma elapsed_pos (x y : Z) : (x < y)%Z -> 0 < inject_Z (y - x) / 1000.
Proof.
  intros H. apply Qlt_shift_div_l; [reflexivity|].
  assert (0 < inject_Z (y - x)) by (change 0 with (inject_Z 0); rewrite <- Zlt_Qlt; lia). lra.
Qed.

Lemma drain_spec b now b' rel :
  drain b now = (b', rel) ->
  capacity b' = capacity b /\ refillPerSec b' = refillPerSec b /\
  (queue b = rel ++ queue b')%list /\ (queue b' = [] \/ tokens b' < 1) /\
  (timer b' = true <-> queue b' <> []) /\
  (bounded b -> bounded b' /\
     inject_Z (Z.of_nat (length rel)) + tokens b'
     <= tokens b + refillPerSec b * ((inject_Z (lastRefill b') - inject_Z (lastRefill b)) / 1000)) /\
  ((lastRefill b <= lastRefill b')%Z /\ (lastRefill b' = lastRefill b \/ lastRefill b' = now)).
Proof.
  unfold drain. intros H.
  destruct (refill_spec b now) as (Hc & Hr & Hq & _ & Hb).
  remember (refill b now) as b1 eqn:E1.
  destruct (release (tokens b1) (queue b1)) as [[tk rl] rest] eqn:E.
  injection H as <- <-. cbn.
  destruct (release_spec _ _ _ _ _ E) as (Hq1 & Ht1 & Hr1 & Hp1).
  split; [exact Hc|]. split; [exact Hr|]. split; [congruence|]. split; [exact Hr1|].
  split; [destruct rest; split; intros; congruence|].
  assert (Hlen : 0 <= inject_Z (Z.of_nat (length rl))).
  { change 0 with (inject_Z 0). rewrite <- Zle_Qle. lia. }
  split.
  - intros (Hrate & H0 & H1).
    destruct Hb as [Heq | (Hlt & Hl & Ht)].
    + rewrite Heq in *. unfold bounded; cbn.
      split; [split; [exact Hrate|split; [apply Hp1; exact H0|]]|].
      * rewrite Ht1. lra.
      * rewrite Ht1. setoid_replace ((inject_Z (lastRefill b) - inject_Z (lastRefill b)) / 1000) with 0
          by (field). lra.
    + assert (He := elapsed_pos _ _ Hlt).
      set (el := inject_Z (now - lastRefill b) / 1000) in *.
      assert (Hadd : 0 <= el * refillPerSec b) by nra.
      assert (Hm1 : tokens b1 <= tokens b + el * refillPerSec b) by (rewrite Ht; apply Q.le_min_r).
      assert (Hm2 : tokens b1 <= capacity b) by (rewrite Ht; apply Q.le_min_l).
      assert (Hm3 : 0 <= tokens b1).
      { rewrite Ht. apply Q.min_glb; lra. }
      unfold bounded; cbn. rewrite Hr, Hc.
      split; [split; [exact Hrate|split; [apply Hp1; exact Hm3|]]|].
      * rewrite Ht1. lra.
      * rewrite Ht1, Hl.
        assert (Hel : el == refillPerSec b * 0 + (inject_Z now - inject_Z (lastRefill b)) / 1000).
        { unfold el. rewrite inject_Z_sub. ring. }
        assert (Heq : refillPerSec b * ((inject_Z now - inject_Z (lastRefill b)) / 1000)
                      == el * refillPerSec b) by (rewrite Hel; ring).
        rewrite Heq. lra.
  - destruct Hb as [Heq | (Hlt & Hl & _)].
    + rewrite Heq. split; [lia | left; reflexivity].
    + rewrite Hl. split; [lia | right; reflexivity].
Qed.

Lemma step_spec b e b' rel :
  step b e = (b', rel) ->
  capacity b' = capacity b /\ refillPerSec b' = refillPerSec b /\
  (queue b ++ acq e = rel ++ queue b')%list /\
  (settled b -> settled b') /\
  (bounded b -> bounded b' /\
     inject_Z (Z.of_nat (length rel)) + tokens b'
     <= tokens b + refillPerSec b * ((inject_Z (lastRefill b') - inject_Z (lastRefill b)) / 1000)) /\
  ((lastRefill b <= lastRefill b')%Z /\
   (lastRefill b' = lastRefill b \/ lastRefill b' = event_time e)).
Proof.
  destruct e as [now w | now]; cbn.
  - unfold acquire. intros H.
    destruct (drain_spec _ _ _ _ H) as (Hc & Hr & Hq & Hs & Ht & Hb & Hl). cbn in *.
    refine (conj Hc (conj Hr (conj Hq (conj _ (conj Hb Hl))))).
    intros _. unfold settled. tauto.
  - destruct (timer b) eqn:T.
    + intros H. destruct (drain_spec _ _ _ _ H) as (Hc & Hr & Hq & Hs & Ht & Hb & Hl).
      rewrite app_nil_r.
      refine (conj Hc (conj Hr (conj Hq (conj _ (conj Hb Hl))))).
      intros _. unfold settled. tauto.
    + intros H. injection H as <- <-. rewrite app_nil_r.
      refine (conj eq_refl (conj eq_refl (conj eq_refl (conj (fun h => h) (conj _ _))))).
      * intros Hb. split; [exact Hb|].
        setoid_replace ((inject_Z (lastRefill b) - inject_Z (lastRefill b)) / 1000) with 0
          by field. change (inject_Z (Z.of_nat (length (@nil nat)))) with 0. lra.
      * split; [lia | left; reflexivity].
Qed.

Lemma run_spec b es b' rel :
  run b es = (b', rel) ->
  capacity b' = capacity b /\ refillPerSec b' = refillPerSec b /\
  (queue b ++ acquired es = rel ++ queue b')%list /\
  (settled b -> settled b') /\
  (bounded b -> bounded b' /\
     inject_Z (Z.of_nat (length rel)) + tokens b'
     <= tokens b + refillPerSec b * ((inject_Z (lastRefill b') - inject_Z (lastRefill b)) / 1000)) /\
  ((lastRefill b <= lastRefill b')%Z /\
   (lastRefill b' = lastRefill b \/ In (lastRefill b') (map event_time es))).
Proof.
  revert b b' rel. induction es as [|e es IH]; intros b b' rel H; cbn in H.
  - injection H as <- <-. change (acquired []) with (@nil nat). rewrite !app_nil_r.
    refine (conj eq_refl (conj eq_refl (conj eq_refl (conj (fun h => h) (conj _ _))))).
    + intros Hb. split; [exact Hb|].
      assert (E0 : (inject_Z (lastRefill b) - inject_Z (lastRefill b)) / 1000 == 0) by field.
      rewrite E0. change (inject_Z (Z.of_nat (length (@nil nat)))) with 0. lra.
    + split; [lia | left; reflexivity].
  - destruct (step b e) as [b1 rel1] eqn:E1.
    destruct (run b1 es) as [b2 rel2] eqn:E2.
    injection H as <- <-.
    destruct (step_spec _ _ _ _ E1) as (Hc1 & Hr1 & Hq1 & Hs1 & Hb1 & Hl1).
    destruct (IH _ _ _ E2) as (Hc2 & Hr2 & Hq2 & Hs2 & Hb2 & Hl2).
    split; [congruence|]. split; [congruence|].
    split.
    { change (acquired (e :: es)) with (acq e ++ acquired es)%list.
      rewrite app_assoc, Hq1, <- app_assoc, Hq2, app_assoc. reflexivity. }
    split; [tauto|].
    split.
    + intros Hb. destruct (Hb1 Hb) as [Hb1' H1]. destruct (Hb2 Hb1') as [Hb2' H2].
      split; [exact Hb2'|].
      rewrite length_app, Nat2Z.inj_add, inject_Z_plus. rewrite Hr1 in H2. unfold Qdiv in *. change (/ 1000) with (1#1000) in *. lra.
    + destruct Hl1 as [Hm1 Hw1]. destruct Hl2 as [Hm2 Hw2]. split; [lia|].
      destruct Hw2 as [Hw2 | Hw2].
      * rewrite Hw2. destruct Hw1 as [Hw1 | Hw1]; [left; exact Hw1 | right; left; congruence].
      * right. right. exact Hw2.
Qed.

(** TokenBucket: from a bucket with a non-negative rate and tokens in
    [0, capacity], any sequence of [acquire] calls and timer firings keeps the
    capacity and leaves the tokens in [0, capacity]. *)
Theorem bucket_tokens_in_range b es :
  0 <= refillPerSec b -> 0 <= tokens b -> tokens b <= capacity b ->
  let b' := fst (run b es) in
  capacity b' = capacity b /\ 0 <= tokens b' /\ tokens b' <= capacity b.
Proof.
  intros H1 H2 H3. cbv zeta. destruct (run b es) as [b' rel] eqn:E. cbn.
  destruct (run_spec _ _ _ _ E) as (Hc & _ & _ & _ & Hb & _).
  destruct (Hb (conj H1 (conj H2 H3))) as [(_ & H4 & H5) _].
  rewrite Hc in H5. auto.
Qed.

Lemma bucket_tokens_in_range_witness :
  (0 <= refillPerSec (create 2 2 0) /\ 0 <= tokens (create 2 2 0)
   /\ tokens (create 2 2 0) <= capacity (create 2 2 0)) /\
  (let b' := fst (run (create 2 2 0) [Acquire 0 1; Acquire 0 2; Acquire 0 3; TimerFires 500]) in
   capacity b' = capacity (create 2 2 0) /\ 0 <= tokens b' /\ tokens b' <= capacity (create 2 2 0)).
Proof.
  assert (H1 : 0 <= refillPerSec (create 2 2 0)) by (apply Qle_bool_iff; reflexivity).
  assert (H2 : 0 <= tokens (create 2 2 0)) by (apply Qle_bool_iff; reflexivity).
  assert (H3 : tokens (create 2 2 0) <= capacity (create 2 2 0)) by (apply Qle_bool_iff; reflexivity).
  split; [split; [exact H1 | split; [exact H2 | exact H3]]|].
  exact (bucket_tokens_in_range (create 2 2 0)
           [Acquire 0 1; Acquire 0 2; Acquire 0 3; TimerFires 500] H1 H2 H3).
Defined.

(** TokenBucket: from a settled bucket, waiters are resolved in the order
    they called [acquire] (the resolved ones followed by those still queued
    are exactly the old queue followed by the new callers), and afterwards no
    waiter is left while a token is available, and a timer is armed exactly
    when waiters remain. *)
Theorem bucket_fifo b es :
  settled b ->
  let '(b', rel) := run b es in
  (queue b ++ acquired es = rel ++ queue b')%list /\
  (queue b' = [] \/ tokens b' < 1) /\ (timer b' = true <-> queue b' <> []).
Proof.
  intros Hs. destruct (run b es) as [b' rel] eqn:E.
  destruct (run_spec _ _ _ _ E) as (_ & _ & Hq & Hs' & _).
  split; [exact Hq | exact (Hs' Hs)].
Qed.

Lemma bucket_fifo_witness :
  settled (create 2 2 0) /\
  let '(b', rel) := run (create 2 2 0) [Acquire 0 1; Acquire 0 2; Acquire 0 3; TimerFires 500] in
  (queue (create 2 2 0) ++ acquired [Acquire 0 1; Acquire 0 2; Acquire 0 3; TimerFires 500]
   = rel ++ queue b')%list /\
  (queue b' = [] \/ tokens b' < 1) /\ (timer b' = true <-> queue b' <> []).
Proof.
  assert (Hs : settled (create 2 2 0)).
  { split; [left; reflexivity | split; [discriminate | intros H; contradiction H; reflexivity]]. }
  split; [exact Hs|].
  exact (bucket_fifo (create 2 2 0) [Acquire 0 1; Acquire 0 2; Acquire 0 3; TimerFires 500] Hs).
Defined.



Section RetryProofs.
Variable Resp : Type.
Variable status : Resp -> Z.
Variable answer : nat -> Resp.
Variable random : nat -> Q.


Lemma attempts_all a left :
  (forall j, (j < left)%nat -> status (answer (a + j)) = 429%Z) ->
  attempts Resp status answer random a left
  = mkLexRun Resp (RetriesExhausted Resp) left (map (backoff random) (seq a left)).
Proof.
  revert a. induction left as [|l IH]; intros a H429; [reflexivity|].
  cbn. assert (H0 := H429 0%nat ltac:(lia)). rewrite Nat.add_0_r in H0. rewrite H0. cbn.
  rewrite IH; [reflexivity|].
  intros j Hj. replace (S a + j)%nat with (a + S j)%nat by lia. apply H429. lia.
Qed.

Lemma backoff_bounds a :
  0 <= random a -> random a < 1 ->
  (Z.min 12000 (800 * 2 ^ Z.of_nat a) <= backoff random a
   <= Z.min 12000 (800 * 2 ^ Z.of_nat a + 249))%Z.
Proof.
  intros H0 H1. unfold backoff.
  assert (Hf1 := Qfloor_le (random a * 250)).
  assert (Hf2 := Qlt_floor (random a * 250)).
  assert (L1 : (0 <= Qfloor (random a * 250))%Z).
  { assert (Hp : 0 <= random a * 250) by lra.
    assert (inject_Z 0 < inject_Z (Qfloor (random a * 250) + 1)).
    { change (inject_Z 0) with 0. eapply Qle_lt_trans; [exact Hp | exact Hf2]. }
    rewrite <- Zlt_Qlt in H. lia. }
  assert (L2 : (Qfloor (random a * 250) <= 249)%Z).
  { assert (Hp : random a * 250 < inject_Z 250) by (change (inject_Z 250) with 250; lra).
    assert (inject_Z (Qfloor (random a * 250)) < inject_Z 250).
    { eapply Qle_lt_trans; [exact Hf1 | exact Hp]. }
    rewrite <- Zlt_Qlt in H. lia. }
  lia.
Qed.
End RetryProofs.



(** lexwareRequest: if all answers are 429 (and [Math.random()] is in
    [0, 1)), the call gives up after 6 requests with the synthetic 429 result,
    after 6 waits totalling between 36000 and 36996 ms. *)
Theorem lexwareRequest_gives_up_after_six Resp status answer random :
  (forall j, (j <= maxRetries)%nat -> status (answer j) = 429%Z) ->
  (forall j, 0 <= random j /\ random j < 1) ->
  let r := lexwareRequest Resp status answer random in
  lr_result Resp r = RetriesExhausted Resp /\ lr_requests Resp r = 6%nat /\
  length (lr_waits Resp r) = 6%nat /\
  (36000 <= fold_left Z.add (lr_waits Resp r) 0 <= 36996)%Z.
Proof.
  intros H1 H2. cbv zeta. unfold lexwareRequest.
  rewrite (attempts_all Resp status answer random 0 (S maxRetries)).
  2: { intros j Hj. apply H1. unfold maxRetries in *. lia. }
  cbn [lr_result lr_requests lr_waits]. split; [reflexivity|]. split; [reflexivity|].
  split; [reflexivity|].
  cbn - [backoff Z.pow].
  pose proof (fun a => backoff_bounds random a (proj1 (H2 a)) (proj2 (H2 a))) as B.
  pose proof (B 0%nat) as B0. pose proof (B 1%nat) as B1. pose proof (B 2%nat) as B2.
  pose proof (B 3%nat) as B3. pose proof (B 4%nat) as B4. pose proof (B 5%nat) as B5.
  cbn in B0, B1, B2, B3, B4, B5. lia.
Qed.

Lemma lexwareRequest_gives_up_after_six_witness :
  (forall j, (j <= maxRetries)%nat -> (fun _ : nat => 429%Z) j = 429%Z) /\
  (forall j : nat, 0 <= (fun _ : nat => 1 # 2) j /\ (fun _ : nat => 1 # 2) j < 1) /\
  let r := lexwareRequest Z (fun r => r) (fun _ => 429%Z) (fun _ => 1 # 2) in
  lr_result Z r = RetriesExhausted Z /\ lr_requests Z r = 6%nat /\
  length (lr_waits Z r) = 6%nat /\ (36000 <= fold_left Z.add (lr_waits Z r) 0 <= 36996)%Z.
Proof.
  assert (H1 : forall j, (j <= maxRetries)%nat -> (fun _ : nat => 429%Z) j = 429%Z)
    by (intros; reflexivity).
  assert (H2 : forall j : nat, 0 <= (fun _ : nat => 1 # 2) j /\ (fun _ : nat => 1 # 2) j < 1).
  { intros j. split; [apply Qle_bool_iff; reflexivity | apply Qlt_alt; reflexivity]. }
  split; [exact H1|]. split; [exact H2|].
  exact (lexwareRequest_gives_up_after_six Z (fun r => r) (fun _ => 429%Z) (fun _ => 1 # 2) H1 H2).
Defined.

Lemma map_get_set_same {V : Type} (m : list (string * V)) k v :
  map_get (map_set m k v) k = Some v.
Proof.
  induction m as [|[k' v'] r IH]; cbn.
  - rewrite String.eqb_refl. reflexivity.
  - destruct (String.eqb k k') eqn:E; cbn; rewrite E; [reflexivity | exact IH].
Qed.

Lemma map_get_set_other {V : Type} (m : list (string * V)) k k2 v :
  k2 <> k -> map_get (map_set m k v) k2 = map_get m k2.
Proof.
  intros Hne. induction m as [|[k' v'] r IH]; cbn.
  - apply String.eqb_neq in Hne. rewrite Hne. reflexivity.
  - destruct (String.eqb k k') eqn:E; cbn.
    + apply String.eqb_eq in E. subst k'. apply String.eqb_neq in Hne. rewrite Hne. reflexivity.
    + destruct (String.eqb k2 k'); [reflexivity | exact IH].
Qed.

Lemma getArticleById_fetch_shape (Data : Type) byId articleId now0 answer now1 x :
  let r1 := getArticleById Data byId articleId now0 answer now1 in
  lk_requested Data r1 = true -> lk_result Data r1 = Some x ->
  nonempty articleId = true /\ lk_cache Data r1 = map_set byId articleId (now1, x).
Proof.
  cbv zeta. destruct answer as [st d]. unfold getArticleById.
  destruct (nonempty articleId) eqn:Hid; cbn [negb]; [|cbn; discriminate].
  destruct (map_get byId articleId) as [[ts d0]|];
    [destruct (now0 - ts <? ttlMs)%Z; [cbn; discriminate|]|];
    (destruct (is_2xx st); cbn; [intros _ Hx; injection Hx as ->; split; reflexivity | discriminate]).
Qed.

(** getArticleById: after a lookup that sent a request and returned an
    article, a lookup of the same id less than [ttlMs] after that answer
    returns the same article without a request and leaves the cache as is. *)
Theorem getArticleById_fetched_then_cached (Data : Type) byId articleId now0 answer now1
  x now2 answer2 now3 :
  let r1 := getArticleById Data byId articleId now0 answer now1 in
  lk_requested Data r1 = true -> lk_result Data r1 = Some x -> (now2 - now1 < ttlMs)%Z ->
  getArticleById Data (lk_cache Data r1) articleId now2 answer2 now3
  = mkLookup Data (Some x) (lk_cache Data r1) false.
Proof.
  cbv zeta. intros Hreq Hres Ht.
  destruct (getArticleById_fetch_shape Data byId articleId now0 answer now1 x Hreq Hres) as [Hid Hc].
  rewrite Hc. unfold getArticleById at 1. rewrite Hid, map_get_set_same.
  apply Z.ltb_lt in Ht. rewrite Ht. reflexivity.
Qed.

Lemma getArticleById_fetched_then_cached_witness :
  let r1 := getArticleById nat [] "A1" 0 (200%Z, 7%nat) 10 in
  lk_requested nat r1 = true /\ lk_result nat r1 = Some 7%nat /\ (1000 - 10 < ttlMs)%Z /\
  getArticleById nat (lk_cache nat r1) "A1" 1000 (500%Z, 0%nat) 1001
  = mkLookup nat (Some 7%nat) (lk_cache nat r1) false.
Proof.
  intros r1.
  assert (H1 : lk_requested nat r1 = true) by reflexivity.
  assert (H2 : lk_result nat r1 = Some 7%nat) by reflexivity.
  assert (H3 : (1000 - 10 < ttlMs)%Z) by reflexivity.
  split; [exact H1|]. split; [exact H2|]. split; [exact H3|].
  exact (getArticleById_fetched_then_cached nat [] "A1" 0 (200%Z, 7%nat) 10 7%nat 1000
           (500%Z, 0%nat) 1001 H1 H2 H3).
Defined.

(** getArticleById: a lookup that returns [null] (empty id or a non-2xx
    answer) leaves the cache unchanged, so failures are never cached. *)
Theorem getArticleById_null_keeps_cache (Data : Type) byId articleId now0 answer now1 :
  lk_result Data (getArticleById Data byId articleId now0 answer now1) = None ->
  lk_cache Data (getArticleById Data byId articleId now0 answer now1) = byId.
Proof.
  destruct answer as [st d]. unfold getArticleById.
  destruct (negb (nonempty articleId)); [reflexivity|].
  destruct (map_get byId articleId) as [[ts d0]|];
    [destruct (now0 - ts <? ttlMs)%Z; [cbn; discriminate|]|];
    (destruct (is_2xx st); cbn; [discriminate | reflexivity]).
Qed.

Lemma getArticleById_null_keeps_cache_witness :
  lk_result nat (getArticleById nat [("A1", (0%Z, 5%nat))] "B2" 0 (404%Z, 0%nat) 10) = None /\
  lk_cache nat (getArticleById nat [("A1", (0%Z, 5%nat))] "B2" 0 (404%Z, 0%nat) 10)
  = [("A1", (0%Z, 5%nat))].
Proof.
  assert (H : lk_result nat (getArticleById nat [("A1", (0%Z, 5%nat))] "B2" 0 (404%Z, 0%nat) 10)
              = None) by reflexivity.
  split; [exact H|].
  exact (getArticleById_null_keeps_cache nat [("A1", (0%Z, 5%nat))] "B2" 0 (404%Z, 0%nat) 10 H).
Defined.

(** getArticleById: a lookup of one id never changes the cache entry of
    another id. *)
Theorem getArticleById_other_keys (Data : Type) byId articleId now0 answer now1 k :
  k <> articleId ->
  map_get (lk_cache Data (getArticleById Data byId articleId now0 answer now1)) k
  = map_get byId k.
Proof.
  intros Hk. destruct answer as [st d]. unfold getArticleById.
  destruct (negb (nonempty articleId)); [reflexivity|].
  destruct (map_get byId articleId) as [[ts d0]|];
    [destruct (now0 - ts <? ttlMs)%Z; [reflexivity|]|];
    (destruct (is_2xx st); cbn; [apply map_get_set_other; exact Hk | reflexivity]).
Qed.

Lemma getArticleById_other_keys_witness :
  "A1" <> "B2" /\
  map_get (lk_cache nat (getArticleById nat [("A1", (0%Z, 5%nat))] "B2" 0 (200%Z, 9%nat) 10)) "A1"
  = map_get [("A1", (0%Z, 5%nat))] "A1".
Proof.
  assert (H : "A1" <> "B2") by discriminate.
  split; [exact H|].
  exact (getArticleById_other_keys nat [("A1", (0%Z, 5%nat))] "B2" 0 (200%Z, 9%nat) 10 "A1" H).
Defined.

Section ListProofs.
Variable Art : Type.
Variable page_answer : nat -> PageResp Art.

Lemma fetch_pages_count fuel page :
  (page <= 100)%nat -> (snd (fetch_pages Art page_answer fuel page) + page <= 101)%nat.
Proof.
  revert page. induction fuel as [|f IH]; intros page Hp; cbn -[Nat.ltb]; [lia|].
  destruct (pg_data Art (page_answer page)) as [d|]; cbn -[Nat.ltb]; [|lia].
  destruct (negb (is_2xx (pg_status Art (page_answer page)))); cbn -[Nat.ltb]; [lia|].
  destruct (negb (not_strict_true (pd_last Art d))); cbn -[Nat.ltb]; [lia|].
  destruct (match pd_content Art d with Some c => c | None => [] end); cbn -[Nat.ltb]; [lia|].
  destruct (100 <? S page)%nat eqn:E; cbn -[Nat.ltb]; [lia|].
  apply Nat.ltb_ge in E.
  specialize (IH (S page) ltac:(lia)).
  destruct (fetch_pages Art page_answer f (S page)) as [rest n]. cbn in *. lia.
Qed.

Lemma fetch_pages_pos fuel page :
  (0 < fuel)%nat -> (1 <= snd (fetch_pages Art page_answer fuel page))%nat.
Proof.
  destruct fuel as [|f]; [lia|]. intros _. cbn -[Nat.ltb].
  destruct (pg_data Art (page_answer page)) as [d|]; cbn -[Nat.ltb]; [|lia].
  destruct (negb (is_2xx (pg_status Art (page_answer page)))); cbn -[Nat.ltb]; [lia|].
  destruct (negb (not_strict_true (pd_last Art d))); cbn -[Nat.ltb]; [lia|].
  destruct (match pd_content Art d with Some c => c | None => [] end); cbn -[Nat.ltb]; [lia|].
  destruct (100 <? S page)%nat; cbn -[Nat.ltb]; [lia|].
  destruct (fetch_pages Art page_answer f (S page)). cbn -[Nat.ltb]. lia.
Qed.
End ListProofs.

(** listAllArticlesCached: a call sends at most 101 page requests, and it
    sends none exactly when a cached list younger than [ttlMs] exists. *)
Theorem listAllArticlesCached_requests (Art : Type) page_answer c now0 now1 :
  let '(l, c', n) := listAllArticlesCached Art page_answer c now0 now1 in
  (n <= 101)%nat /\
  (n = 0%nat <-> exists l0, lc_list Art c = Some l0 /\ (now0 - lc_fetchedAt Art c < ttlMs)%Z).
Proof.
  unfold listAllArticlesCached.
  pose proof (fetch_pages_count Art page_answer 101 0 ltac:(lia)) as Hc.
  pose proof (fetch_pages_pos Art page_answer 101 0 ltac:(lia)) as Hp.
  destruct (fetch_pages Art page_answer 101 0) as [all n] eqn:E. cbn in Hc, Hp.
  destruct (lc_list Art c) as [l0|] eqn:El.
  - destruct (now0 - lc_fetchedAt Art c <? ttlMs)%Z eqn:Et.
    + apply Z.ltb_lt in Et. split; [lia|]. split; [eauto|reflexivity].
    + apply Z.ltb_ge in Et. split; [lia|]. split; [lia|].
      intros (l1 & H1 & H2). lia.
  - split; [lia|]. split; [lia|]. intros (l1 & H1 & _). discriminate.
Qed.

Lemma listAll_fetched_cache (Art : Type) page_answer c now0 now1 l c' n :
  listAllArticlesCached Art page_answer c now0 now1 = (l, c', n) -> (0 < n)%nat ->
  c' = mkListCache Art (Some l) now1.
Proof.
  intros H Hn. unfold listAllArticlesCached in H.
  destruct (fetch_pages Art page_answer 101 0) as [all m].
  destruct (lc_list Art c) as [l0|];
    [destruct (now0 - lc_fetchedAt Art c <? ttlMs)%Z; [injection H as _ _ <-; lia|]|];
    injection H as <- <- _; reflexivity.
Qed.

Lemma listAll_fresh (Art : Type) page_answer l t now2 now3 :
  (now2 - t < ttlMs)%Z ->
  listAllArticlesCached Art page_answer (mkListCache Art (Some l) t) now2 now3
  = (l, mkListCache Art (Some l) t, 0%nat).
Proof.
  intros Ht. unfold listAllArticlesCached. cbn [lc_list lc_fetchedAt].
  apply Z.ltb_lt in Ht. rewrite Ht. reflexivity.
Qed.

(** listAllArticlesCached: after a call that fetched pages, a call less than
    [ttlMs] after it returns the same list and cache without any request. *)
Theorem listAllArticlesCached_reuse (Art : Type) page_answer c now0 now1 l c' n now2 now3 :
  listAllArticlesCached Art page_answer c now0 now1 = (l, c', n) ->
  (0 < n)%nat -> (now2 - now1 < ttlMs)%Z ->
  listAllArticlesCached Art page_answer c' now2 now3 = (l, c', 0%nat).
Proof.
  intros H Hn Ht. rewrite (listAll_fetched_cache Art page_answer c now0 now1 l c' n H Hn).
  apply listAll_fresh. exact Ht.
Qed.

Lemma listAllArticlesCached_reuse_witness :
  let pages := fun p : nat => mkPageResp nat 200 (Some (mkPageData nat (Some [p]) (JBool (p =? 1)%nat))) in
  listAllArticlesCached nat pages (mkListCache nat None 0) 0 5
    = ([0; 1]%nat, mkListCache nat (Some [0; 1]%nat) 5, 2%nat) /\
  (0 < 2)%nat /\ (100 - 5 < ttlMs)%Z /\
  listAllArticlesCached nat pages (mkListCache nat (Some [0; 1]%nat) 5) 100 105
    = ([0; 1]%nat, mkListCache nat (Some [0; 1]%nat) 5, 0%nat).
Proof.
  intros pages.
  assert (H1 : listAllArticlesCached nat pages (mkListCache nat None 0) 0 5
               = ([0; 1]%nat, mkListCache nat (Some [0; 1]%nat) 5, 2%nat)) by reflexivity.
  assert (H2 : (0 < 2)%nat) by lia.
  assert (H3 : (100 - 5 < ttlMs)%Z) by reflexivity.
  split; [exact H1|]. split; [exact H2|]. split; [exact H3|].
  exact (listAllArticlesCached_reuse nat pages (mkListCache nat None 0) 0 5 [0; 1]%nat
           (mkListCache nat (Some [0; 1]%nat) 5) 2 100 105 H1 H2 H3).
Defined.

(** listAllArticlesCached: when the cache is missing or stale and the first
    page answers with a non-2xx status, the result is the empty list after one
    request, and that empty list is then served without requests for
    [ttlMs]. *)
Theorem listAllArticlesCached_failed_first_page (Art : Type) page_answer c now0 now1 now2 now3 :
  is_2xx (pg_status Art (page_answer 0%nat)) = false ->
  (forall l0, lc_list Art c = Some l0 -> (ttlMs <= now0 - lc_fetchedAt Art c)%Z) ->
  (now2 - now1 < ttlMs)%Z ->
  let '(l, c', n) := listAllArticlesCached Art page_answer c now0 now1 in
  l = [] /\ n = 1%nat /\ listAllArticlesCached Art page_answer c' now2 now3 = ([], c', 0%nat).
Proof.
  intros Hst Hstale Ht.
  assert (Hf : fetch_pages Art page_answer 101 0 = ([], 1%nat)).
  { cbn -[Nat.ltb]. destruct (pg_data Art (page_answer 0%nat)); [rewrite Hst; reflexivity | reflexivity]. }
  destruct (listAllArticlesCached Art page_answer c now0 now1) as [[l c'] n] eqn:E.
  assert (Hl : l = [] /\ n = 1%nat).
  { unfold listAllArticlesCached in E. rewrite Hf in E.
    destruct (lc_list Art c) as [l0|] eqn:El.
    - specialize (Hstale l0 eq_refl).
      assert (Hb : (now0 - lc_fetchedAt Art c <? ttlMs)%Z = false) by (apply Z.ltb_ge; lia).
      rewrite Hb in E. injection E as <- _ <-. split; reflexivity.
    - injection E as <- _ <-. split; reflexivity. }
  destruct Hl as [-> ->]. split; [reflexivity|]. split; [reflexivity|].
  rewrite (listAll_fetched_cache Art page_answer c now0 now1 [] c' 1%nat E ltac:(lia)).
  apply listAll_fresh. exact Ht.
Qed.

Lemma listAllArticlesCached_failed_first_page_witness :
  let pages := fun _ : nat => mkPageResp nat 503 None in
  is_2xx (pg_status nat (pages 0%nat)) = false /\
  (forall l0, lc_list nat (mkListCache nat (Some [9%nat]) 0) = Some l0 ->
     (ttlMs <= 700000 - lc_fetchedAt nat (mkListCache nat (Some [9%nat]) 0))%Z) /\
  (700100 - 700000 < ttlMs)%Z /\
  let '(l, c', n) := listAllArticlesCached nat pages (mkListCache nat (Some [9%nat]) 0) 700000 700000 in
  l = [] /\ n = 1%nat /\ listAllArticlesCached nat pages c' 700100 700100 = ([], c', 0%nat).
Proof.
  intros pages.
  assert (H1 : is_2xx (pg_status nat (pages 0%nat)) = false) by reflexivity.
  assert (H2 : forall l0, lc_list nat (mkListCache nat (Some [9%nat]) 0) = Some l0 ->
     (ttlMs <= 700000 - lc_fetchedAt nat (mkListCache nat (Some [9%nat]) 0))%Z).
  { intros l0 _. cbn. unfold ttlMs. lia. }
  assert (H3 : (700100 - 700000 < ttlMs)%Z) by reflexivity.
  split; [exact H1|]. split; [exact H2|]. split; [exact H3|].
  exact (listAllArticlesCached_failed_first_page nat pages (mkListCache nat (Some [9%nat]) 0)
           700000 700000 700100 700100 H1 H2 H3).
Defined.

(* auth *)
Lemma substring_0_len s : substring 0 (String.length s) s = s.
Proof. induction s as [|a r IH]; cbn; [reflexivity | now rewrite IH]. Qed.

Lemma slice_from_0 s : slice_from 0 s = s.
Proof. unfold slice_from. rewrite Nat.sub_0_r. apply substring_0_len. Qed.

Lemma slice_from_S a r m : slice_from (S m) (String a r) = slice_from m r.
Proof. reflexivity. Qed.

Lemma slice_from_app u x : slice_from (String.length u) (u ++ x) = x.
Proof.
  induction u as [|a r IH]; cbn [String.length append].
  - apply slice_from_0.
  - rewrite slice_from_S. exact IH.
Qed.

Lemma substring_0_app u x : substring 0 (String.length u) (u ++ x) = u.
Proof. induction u as [|a r IH]; cbn; [now destruct x | now rewrite IH]. Qed.

Lemma slice_from_app_S u c p : slice_from (S (String.length u)) (u ++ String c p) = p.
Proof.
  induction u as [|a r IH]; cbn [String.length append].
  - rewrite slice_from_S. apply slice_from_0.
  - rewrite slice_from_S. exact IH.
Qed.

Lemma indexOf_split c s i :
  indexOf c s = Some i ->
  s = (substring 0 i s ++ String c (slice_from (S i) s))%string /\ indexOf c (substring 0 i s) = None.
Proof.
  revert i. induction s as [|a r IH]; intros i H; cbn in H; [discriminate|].
  destruct (Ascii.eqb c a) eqn:E.
  - injection H as <-. apply Ascii.eqb_eq in E. subst a.
    rewrite slice_from_S, slice_from_0. split; reflexivity.
  - destruct (indexOf c r) as [j|] eqn:Ej; cbn in H; [|discriminate].
    injection H as <-. destruct (IH j eq_refl) as [H1 H2].
    rewrite slice_from_S. cbn. rewrite E, H2. split; [|reflexivity].
    f_equal. exact H1.
Qed.

Lemma indexOf_app_none c u p :
  indexOf c u = None -> indexOf c (u ++ String c p) = Some (String.length u).
Proof.
  induction u as [|a r IH]; cbn; intros H.
  - rewrite Ascii.eqb_refl. reflexivity.
  - destruct (Ascii.eqb c a); [discriminate|].
    destruct (indexOf c r); [discriminate|]. rewrite IH; reflexivity.
Qed.

Lemma prefix_split p h :
  String.prefix p h = true -> h = (p ++ slice_from (String.length p) h)%string.
Proof.
  revert h. induction p as [|a r IH]; intros h H.
  - cbn. symmetry. apply slice_from_0.
  - destruct h as [|b hs]; cbn in H; [discriminate|].
    destruct (ascii_dec a b) as [<-|]; [|discriminate].
    cbn [String.length append]. rewrite slice_from_S. f_equal. apply IH. exact H.
Qed.

Lemma prefix_app p x : String.prefix p (p ++ x) = true.
Proof.
  induction p as [|a r IH]; cbn; [now destruct x|].
  destruct (ascii_dec a a) as [_|n]; [exact IH | contradiction].
Qed.

Lemma nonempty_basic b : nonempty ("Basic " ++ b) = true.
Proof. reflexivity. Qed.

Lemma parseBasicAuth_basic b64 b :
  parseBasicAuth b64 (Some ("Basic " ++ b)) =
  match indexOf ":"%char (b64 b) with
  | None => None
  | Some idx => Some (substring 0 idx (b64 b), slice_from (S idx) (b64 b))
  end.
Proof.
  unfold parseBasicAuth. rewrite nonempty_basic, prefix_app.
  change (slice_from 6 ("Basic " ++ b)) with (slice_from (String.length "Basic ") ("Basic " ++ b)).
  rewrite slice_from_app. reflexivity.
Qed.

Lemma parseBasicAuth_some b64 h user pass :
  parseBasicAuth b64 (Some h) = Some (user, pass) ->
  exists b, h = ("Basic " ++ b)%string /\ b64 b = (user ++ ":" ++ pass)%string
            /\ indexOf ":"%char user = None.
Proof.
  unfold parseBasicAuth.
  destruct (nonempty h); cbn [negb orb]; [|discriminate].
  destruct (String.prefix "Basic " h) eqn:Hp; cbn [negb orb]; [|discriminate].
  destruct (indexOf ":"%char (b64 (slice_from 6 h))) as [idx|] eqn:Ei; [|discriminate].
  intros H. injection H as <- <-.
  exists (slice_from 6 h). split; [exact (prefix_split _ _ Hp)|].
  destruct (indexOf_split _ _ _ Ei) as [H1 H2]. split; [exact H1 | exact H2].
Qed.

(** authMiddleware with APP_USER and APP_PASS set (APP_USER without ':'):
    a request passes exactly when its Authorization header is "Basic " followed
    by a string that decodes to APP_USER:APP_PASS. *)
Theorem basicAuth_accepts_exactly b64 cfg rq :
  nonempty (APP_USER cfg) = true -> nonempty (APP_PASS cfg) = true ->
  indexOf ":"%char (APP_USER cfg) = None ->
  (authMiddleware b64 cfg rq = Next <->
   exists b, rq_authorization rq = Some ("Basic " ++ b)%string
             /\ b64 b = (APP_USER cfg ++ ":" ++ APP_PASS cfg)%string).
Proof.
  intros Hu Hp Hc. unfold authMiddleware. rewrite Hu, Hp. cbn [andb].
  unfold basicAuthMiddleware. rewrite Hu, Hp. cbn [negb orb].
  split.
  - destruct (rq_authorization rq) as [h|] eqn:Ea; [|cbn; discriminate].
    destruct (parseBasicAuth b64 (Some h)) as [[user pass]|] eqn:Ep; [|discriminate].
    destruct (String.eqb user (APP_USER cfg)) eqn:E1; [|discriminate].
    destruct (String.eqb pass (APP_PASS cfg)) eqn:E2; [|discriminate].
    intros _. apply String.eqb_eq in E1, E2. subst.
    destruct (parseBasicAuth_some _ _ _ _ Ep) as (b & -> & Hb & _).
    exists b. split; [reflexivity | exact Hb].
  - intros (b & -> & Hb). rewrite parseBasicAuth_basic, Hb.
    change (APP_USER cfg ++ ":" ++ APP_PASS cfg)%string
      with (APP_USER cfg ++ String ":" (APP_PASS cfg))%string.
    rewrite (indexOf_app_none _ _ _ Hc).
    rewrite substring_0_app, slice_from_app_S, !String.eqb_refl. reflexivity.
Qed.

Lemma basicAuth_accepts_exactly_witness :
  let cfg := mkAuthConfig "" "admin" "secret" in
  let rq := mkRequest (Some "Basic admin:secret") JUndef JUndef JUndef in
  nonempty (APP_USER cfg) = true /\ nonempty (APP_PASS cfg) = true /\
  indexOf ":"%char (APP_USER cfg) = None /\
  (authMiddleware (fun s => s) cfg rq = Next <->
   exists b, rq_authorization rq = Some ("Basic " ++ b)%string
             /\ b = (APP_USER cfg ++ ":" ++ APP_PASS cfg)%string).
Proof.
  intros cfg rq.
  assert (H1 : nonempty (APP_USER cfg) = true) by reflexivity.
  assert (H2 : nonempty (APP_PASS cfg) = true) by reflexivity.
  assert (H3 : indexOf ":"%char (APP_USER cfg) = None) by reflexivity.
  split; [exact H1|]. split; [exact H2|]. split; [exact H3|].
  exact (basicAuth_accepts_exactly (fun s => s) cfg rq H1 H2 H3).
Defined.

(** authMiddleware: when APP_PASS is set and APP_USER contains ':', every
    request is refused with the 401 answer, since the decoded user name ends
    at the first ':'. *)
Theorem basicAuth_colon_user_refuses_all b64 cfg rq :
  nonempty (APP_PASS cfg) = true -> indexOf ":"%char (APP_USER cfg) <> None ->
  authMiddleware b64 cfg rq = AuthRequired401.
Proof.
  intros Hp Hc.
  assert (Hu : nonempty (APP_USER cfg) = true).
  { destruct (APP_USER cfg); [contradiction Hc; reflexivity | reflexivity]. }
  unfold authMiddleware. rewrite Hu, Hp. cbn [andb].
  unfold basicAuthMiddleware. rewrite Hu, Hp. cbn [negb orb].
  destruct (rq_authorization rq) as [h|]; [|reflexivity].
  destruct (parseBasicAuth b64 (Some h)) as [[user pass]|] eqn:Ep; [|reflexivity].
  destruct (String.eqb user (APP_USER cfg)) eqn:E1; [|reflexivity].
  apply String.eqb_eq in E1. subst user.
  destruct (parseBasicAuth_some _ _ _ _ Ep) as (_ & _ & _ & Hn). contradiction.
Qed.

Lemma basicAuth_colon_user_refuses_all_witness :
  let cfg := mkAuthConfig "" "a:b" "p" in
  let rq := mkRequest (Some "Basic a:b:p") JUndef JUndef JUndef in
  nonempty (APP_PASS cfg) = true /\ indexOf ":"%char (APP_USER cfg) <> None /\
  authMiddleware (fun s => s) cfg rq = AuthRequired401.
Proof.
  intros cfg rq.
  assert (H1 : nonempty (APP_PASS cfg) = true) by reflexivity.
  assert (H2 : indexOf ":"%char (APP_USER cfg) <> None) by discriminate.
  split; [exact H1|]. split; [exact H2|].
  exact (basicAuth_colon_user_refuses_all (fun s => s) cfg rq H1 H2).
Defined.

Lemma strict_eq_str_iff v s : strict_eq_str v s = true <-> v = JStr s.
Proof.
  destruct v; cbn; split; try discriminate.
  - intros H. apply String.eqb_eq in H. subst. reflexivity.
  - intros H. injection H as ->. apply String.eqb_refl.
Qed.

(** /api/ping: [passwordProtected] is false exactly when authMiddleware lets
    every request through, and [passwordMode] is "none" exactly then. *)
Theorem passwordProtected_iff_open b64 cfg :
  (passwordProtected cfg = false <-> forall rq, authMiddleware b64 cfg rq = Next) /\
  (passwordMode cfg = "none" <-> passwordProtected cfg = false).
Proof.
  set (rq0 := mkRequest None JUndef JUndef JUndef).
  unfold passwordProtected, passwordMode, authMiddleware, basicAuthMiddleware,
    toolPasswordMiddleware.
  destruct (nonempty (APP_USER cfg)), (nonempty (APP_PASS cfg)), (nonempty (TOOL_PASSWORD cfg));
    cbn; (split; [split; [discriminate || (intros _ rq; reflexivity) |
                         intros H; specialize (H rq0); cbn in H; discriminate || reflexivity]
                 | split; discriminate || reflexivity]).
Qed.

(** toolPasswordMiddleware (basic auth not configured): when the body
    carries a truthy password, the request passes exactly when no
    TOOL_PASSWORD is set or that body password is the string TOOL_PASSWORD; the
    query and header passwords are then ignored. *)
Theorem toolPassword_body_first b64 cfg rq :
  (nonempty (APP_USER cfg) && nonempty (APP_PASS cfg))%bool = false ->
  truthy (rq_body_password rq) = true ->
  (authMiddleware b64 cfg rq = Next <->
   TOOL_PASSWORD cfg = "" \/ rq_body_password rq = JStr (TOOL_PASSWORD cfg)).
Proof.
  intros Hb Ht. unfold authMiddleware. rewrite Hb.
  unfold toolPasswordMiddleware, js_or. rewrite Ht.
  unfold nonempty. destruct (String.eqb (TOOL_PASSWORD cfg) "") eqn:E; cbn [negb].
  - apply String.eqb_eq in E. split; [intros _; left; exact E | reflexivity].
  - apply String.eqb_neq in E.
    destruct (strict_eq_str (rq_body_password rq) (TOOL_PASSWORD cfg)) eqn:S.
    + apply strict_eq_str_iff in S. split; [intros _; right; exact S | reflexivity].
    + split; [discriminate|]. intros [H|H]; [contradiction|].
      apply strict_eq_str_iff in H. congruence.
Qed.

Lemma toolPassword_body_first_witness :
  let cfg := mkAuthConfig "pw" "" "" in
  let rq := mkRequest None (JStr "wrong") JUndef (JStr "pw") in
  (nonempty (APP_USER cfg) && nonempty (APP_PASS cfg))%bool = false /\
  truthy (rq_body_password rq) = true /\
  (authMiddleware (fun s => s) cfg rq = Next <->
   TOOL_PASSWORD cfg = "" \/ rq_body_password rq = JStr (TOOL_PASSWORD cfg)).
Proof.
  intros cfg rq.
  assert (H1 : (nonempty (APP_USER cfg) && nonempty (APP_PASS cfg))%bool = false) by reflexivity.
  assert (H2 : truthy (rq_body_password rq) = true) by reflexivity.
  split; [exact H1|]. split; [exact H2|].
  exact (toolPassword_body_first (fun s => s) cfg rq H1 H2).
Defined.


Lemma radix_digit_comma b : (b <= 99)%Z -> radix_digit b ","%char = None.
Proof.
  intros Hb. unfold radix_digit.
  destruct (_ <? b)%Z eqn:E; [|reflexivity].
  match type of E with ((?d <? b)%Z = true) =>
    assert (Hd : d = 99%Z) by reflexivity; rewrite Hd in E end.
  apply Z.ltb_lt in E. lia.
Qed.

Lemma take_digits_keeps_comma b l acc cnt :
  (b <= 99)%Z -> In ","%char l -> In ","%char (snd (take_digits b l acc cnt)).
Proof.
  intros Hb. revert acc cnt. induction l as [|c r IH]; intros acc cnt H; [destruct H|].
  cbn [take_digits]. destruct (radix_digit b c) as [d|] eqn:E.
  - destruct H as [->|H].
    + rewrite (radix_digit_comma b Hb) in E. discriminate.
    + apply IH. exact H.
  - exact H.
Qed.

Lemma parse_radix_comma b l : (b <= 99)%Z -> In ","%char l -> parse_radix b l = NaN.
Proof.
  intros Hb H. unfold parse_radix.
  pose proof (take_digits_keeps_comma b l 0 0 Hb H) as Hr.
  destruct (take_digits b l 0 0) as [[v n] rest]. cbn in Hr.
  destruct rest; [destruct Hr|]. destruct n; reflexivity.
Qed.

Lemma parse_unsigned_decimal_comma l : In ","%char l -> parse_unsigned_decimal l = None.
Proof.
  intros H. unfold parse_unsigned_decimal.
  pose proof (take_digits_keeps_comma 10 l 0 0 ltac:(lia) H) as H1.
  destruct (take_digits 10 l 0 0) as [[ip ni] r1]. cbn in H1.
  assert (H2 : In ","%char (snd (match r1 with
                  | c :: r => if is_char c 46 then take_digits 10 r ip 0 else (ip, 0%nat, r1)
                  | [] => (ip, 0%nat, r1) end))).
  { destruct r1 as [|c r]; [destruct H1|].
    destruct (is_char c 46) eqn:Ec; [|exact H1].
    destruct H1 as [->|H1]; [vm_compute in Ec; discriminate Ec|].
    apply take_digits_keeps_comma; [lia | exact H1]. }
  destruct (match r1 with
            | c :: r => if is_char c 46 then take_digits 10 r ip 0 else (ip, 0%nat, r1)
            | [] => (ip, 0%nat, r1) end) as [[mant nf] r2]. cbn in H2.
  destruct (ni + nf =? 0)%nat; [reflexivity|].
  destruct r2 as [|e r3]; [destruct H2|].
  destruct (is_char e 101 || is_char e 69) eqn:Ee; [|reflexivity].
  assert (H3 : In ","%char r3) by (destruct H2 as [->|H2]; [vm_compute in Ee; discriminate Ee | exact H2]).
  assert (H4 : In ","%char (snd (match r3 with
          | c :: r => if is_char c 43 then (1%Z, r)
                      else if is_char c 45 then ((-1)%Z, r) else (1%Z, r3)
          | [] => (1%Z, r3) end))).
  { destruct r3 as [|c r]; [destruct H3|].
    destruct (is_char c 43) eqn:E1;
      [|destruct (is_char c 45) eqn:E2; [|exact H3]];
      (destruct H3 as [->|H3]; [vm_compute in *; discriminate | exact H3]). }
  destruct (match r3 with
          | c :: r => if is_char c 43 then (1%Z, r)
                      else if is_char c 45 then ((-1)%Z, r) else (1%Z, r3)
          | [] => (1%Z, r3) end) as [sg r4]. cbn in H4.
  pose proof (take_digits_keeps_comma 10 r4 0 0 ltac:(lia) H4) as H5.
  destruct (take_digits 10 r4 0 0) as [[ev ne] r5]. cbn in H5.
  destruct r5; [destruct H5|]. destruct ne; reflexivity.
Qed.

Lemma drop_ws_In c l : is_ws c = false -> In c l -> In c (drop_ws l).
Proof.
  intros Hc. induction l as [|x r IH]; intros H; [destruct H|].
  cbn. destruct (is_ws x) eqn:Ex; [|exact H].
  destruct H as [->|H]; [congruence | auto].
Qed.

Lemma trim_list_In c l : is_ws c = false -> In c l -> In c (trim_list l).
Proof.
  intros Hc H. unfold trim_list. apply in_rev. rewrite rev_involutive.
  apply drop_ws_In; [exact Hc|]. apply in_rev. rewrite rev_involutive.
  apply drop_ws_In; assumption.
Qed.

Lemma eqb_lit_false l lit :
  In ","%char l -> ~ In ","%char (list_ascii_of_string lit) ->
  String.eqb (string_of_list_ascii l) lit = false.
Proof.
  intros H Hn. destruct (String.eqb (string_of_list_ascii l) lit) eqn:E; [|reflexivity].
  apply String.eqb_eq in E. subst lit. rewrite list_ascii_of_string_of_list_ascii in Hn.
  contradiction.
Qed.

Ltac no_comma_lit := let H := fresh in intros H; cbn in H;
  repeat (destruct H as [H|H]; [discriminate H|]); exact H.

Ltac kill_char := match goal with E : _ = true |- _ =>
  first [ cbn in E; discriminate E
        | apply andb_true_iff in E; destruct E as [_ E]; cbn in E; discriminate E ] end.

Lemma string_to_number_comma s :
  In ","%char (list_ascii_of_string s) -> string_to_number s = NaN.
Proof.
  intros H. unfold string_to_number.
  assert (Hl : In ","%char (trim_list (list_ascii_of_string s)))
    by (apply trim_list_In; [reflexivity | exact H]).
  set (l := trim_list (list_ascii_of_string s)) in *.
  rewrite (eqb_lit_false l "Infinity" Hl ltac:(no_comma_lit)),
          (eqb_lit_false l "+Infinity" Hl ltac:(no_comma_lit)),
          (eqb_lit_false l "-Infinity" Hl ltac:(no_comma_lit)).
  cbn [orb].
  destruct l as [|c [|x r]]; [destruct Hl | |].
  - rewrite (parse_unsigned_decimal_comma _ Hl). reflexivity.
  - repeat match goal with |- context [if ?b then _ else _] => destruct b eqn:? end;
      try (rewrite parse_unsigned_decimal_comma; [reflexivity|]);
      try (apply parse_radix_comma; [lia|]).
    all: destruct Hl as [->|[->|Hr]];
      first [kill_char | left; reflexivity | right; left; reflexivity
            | right; right; exact Hr | right; exact Hr | exact Hr].
Qed.

(** numOrNull: every string containing a comma gives [null]. *)
Theorem numOrNull_comma_is_null s :
  In ","%char (list_ascii_of_string s) -> numOrNull (JStr s) = None.
Proof.
  intros H. destruct s as [|a s']; [destruct H|].
  unfold numOrNull. change (to_number (JStr (String a s'))) with (string_to_number (String a s')).
  rewrite (string_to_number_comma _ H). reflexivity.
Qed.

Lemma numOrNull_comma_is_null_witness :
  In ","%char (list_ascii_of_string "1.234,50") /\ numOrNull (JStr "1.234,50") = None.
Proof.
  assert (H : In ","%char (list_ascii_of_string "1.234,50")).
  { cbn. repeat (first [left; reflexivity | right]). }
  split; [exact H|]. exact (numOrNull_comma_is_null "1.234,50" H).
Defined.

Lemma count_occ_rev_ascii (l : list ascii) c :
  count_occ ascii_dec (rev l) c = count_occ ascii_dec l c.
Proof.
  induction l as [|x r IH]; cbn; [reflexivity|].
  rewrite count_occ_app, IH. cbn. destruct (ascii_dec x c); lia.
Qed.

Lemma count_occ_drop_ws l c :
  is_ws c = false -> count_occ ascii_dec (drop_ws l) c = count_occ ascii_dec l c.
Proof.
  intros Hc. induction l as [|x r IH]; cbn; [reflexivity|].
  destruct (is_ws x) eqn:Ex.
  - rewrite IH. destruct (ascii_dec x c); [subst; congruence | reflexivity].
  - reflexivity.
Qed.

Lemma count_occ_trim l c :
  is_ws c = false -> count_occ ascii_dec (trim_list l) c = count_occ ascii_dec l c.
Proof.
  intros Hc. unfold trim_list.
  rewrite count_occ_rev_ascii, count_occ_drop_ws, count_occ_rev_ascii, count_occ_drop_ws
    by exact Hc. reflexivity.
Qed.

Lemma count_occ_replace_first a b s :
  a <> b ->
  count_occ ascii_dec (list_ascii_of_string (replace_first a b s)) a
  = pred (count_occ ascii_dec (list_ascii_of_string s) a).
Proof.
  intros Hab. induction s as [|c r IH]; cbn; [reflexivity|].
  destruct (Ascii.eqb c a) eqn:E.
  - apply Ascii.eqb_eq in E. subst c. cbn.
    destruct (ascii_dec b a); [congruence|]. destruct (ascii_dec a a); [|congruence]. reflexivity.
  - apply Ascii.eqb_neq in E. cbn. destruct (ascii_dec c a); [congruence|]. exact IH.
Qed.

Lemma replace_first_absent a b s :
  ~ In a (list_ascii_of_string s) -> replace_first a b s = s.
Proof.
  induction s as [|c r IH]; intros H; cbn; [reflexivity|].
  destruct (Ascii.eqb c a) eqn:E.
  - apply Ascii.eqb_eq in E. subst. cbn in H. tauto.
  - rewrite IH; [reflexivity|]. intros Hr. apply H. right. exact Hr.
Qed.

(** parseNumber (lib/parseText.js): a string with two or more commas gives
    [null], since only the first comma becomes a dot. *)
Theorem parseNumber_two_commas_is_null s :
  (2 <= count_occ ascii_dec (list_ascii_of_string s) ","%char)%nat -> parseNumber (JStr s) = None.
Proof.
  intros H. unfold parseNumber. cbn [js_string].
  assert (Hin : In ","%char (list_ascii_of_string
                  (replace_first ","%char "."%char (trim s)))).
  { apply (count_occ_In ascii_dec).
    rewrite count_occ_replace_first by discriminate.
    unfold trim. rewrite list_ascii_of_string_of_list_ascii, count_occ_trim by reflexivity.
    lia. }
  rewrite (string_to_number_comma _ Hin). reflexivity.
Qed.

Lemma parseNumber_two_commas_is_null_witness :
  (2 <= count_occ ascii_dec (list_ascii_of_string "1,234,50") ","%char)%nat /\
  parseNumber (JStr "1,234,50") = None.
Proof.
  assert (H : (2 <= count_occ ascii_dec (list_ascii_of_string "1,234,50") ","%char)%nat)
    by (vm_compute; lia).
  split; [exact H|]. exact (parseNumber_two_commas_is_null "1,234,50" H).
Defined.

(* trim idempotence *)
Lemma drop_ws_head l :
  drop_ws l = [] \/ exists c r, drop_ws l = c :: r /\ is_ws c = false.
Proof.
  induction l as [|x r IH]; cbn; [left; reflexivity|].
  destruct (is_ws x) eqn:Ex; [exact IH | right; eauto].
Qed.

Lemma drop_ws_nonws c r : is_ws c = false -> drop_ws (c :: r) = c :: r.
Proof. intros H. cbn. rewrite H. reflexivity. Qed.

Lemma drop_ws_split l : exists w, l = (w ++ drop_ws l)%list /\ forall x, In x w -> is_ws x = true.
Proof.
  induction l as [|x r IH]; cbn; [exists []; split; [reflexivity | intros _ []]|].
  destruct (is_ws x) eqn:Ex.
  - destruct IH as (w & Hw & Hws). exists (x :: w). split; [cbn; congruence|].
    intros y [<-|Hy]; auto.
  - exists []. split; [reflexivity | intros _ []].
Qed.

Lemma drop_ws_idem l : drop_ws (drop_ws l) = drop_ws l.
Proof.
  destruct (drop_ws_head l) as [->|(c & r & -> & Hc)]; [reflexivity|].
  apply drop_ws_nonws. exact Hc.
Qed.

Lemma trim_list_idem l : trim_list (trim_list l) = trim_list l.
Proof.
  unfold trim_list. set (m := drop_ws l). set (m' := drop_ws (rev m)).
  assert (Hm' : drop_ws (rev m') = rev m').
  { destruct (drop_ws_split (rev m)) as (w & Hw & _). fold m' in Hw.
    assert (Hm : m = (rev m' ++ rev w)%list).
    { rewrite <- rev_app_distr, <- Hw, rev_involutive. reflexivity. }
    destruct (rev m') as [|y t] eqn:Ey; [reflexivity|].
    destruct (drop_ws_head l) as [Hn|(c & r & Hc & Hcw)].
    - fold m in Hn. rewrite Hn in Hm. discriminate Hm.
    - fold m in Hc. rewrite Hc in Hm. cbn in Hm. injection Hm as -> _. apply drop_ws_nonws. exact Hcw. }
  rewrite Hm', rev_involutive. unfold m'. rewrite drop_ws_idem. reflexivity.
Qed.

Lemma string_to_number_trim s : string_to_number (trim s) = string_to_number s.
Proof.
  unfold string_to_number, trim. rewrite list_ascii_of_string_of_list_ascii, trim_list_idem.
  reflexivity.
Qed.

(** parseNumber agrees with numOrNull on every nonempty string without a
    comma. *)
Theorem parseNumber_matches_numOrNull s :
  s <> "" -> ~ In ","%char (list_ascii_of_string s) -> parseNumber (JStr s) = numOrNull (JStr s).
Proof.
  intros Hne Hc. unfold parseNumber. cbn [js_string].
  rewrite replace_first_absent.
  - rewrite string_to_number_trim. destruct s as [|a s']; [contradiction|]. reflexivity.
  - intros Hin. apply Hc. apply (count_occ_In ascii_dec) in Hin. apply (count_occ_In ascii_dec).
    unfold trim in Hin. rewrite list_ascii_of_string_of_list_ascii, count_occ_trim in Hin
      by reflexivity. exact Hin.
Qed.

Lemma parseNumber_matches_numOrNull_witness :
  " 6.9 " <> "" /\ ~ In ","%char (list_ascii_of_string " 6.9 ") /\
  parseNumber (JStr " 6.9 ") = numOrNull (JStr " 6.9 ").
Proof.
  assert (H1 : " 6.9 " <> "") by discriminate.
  assert (H2 : ~ In ","%char (list_ascii_of_string " 6.9 ")) by no_comma_lit.
  split; [exact H1|]. split; [exact H2|].
  exact (parseNumber_matches_numOrNull " 6.9 " H1 H2).
Defined.

Lemma netgross_none_iff n g t :
  buildUnitPriceFromNetGross n g t = None <-> n = None /\ g = None.
Proof.
  destruct n, g; cbn; split; try discriminate; try (intros [H1 H2]; discriminate);
    intros _; split; reflexivity.
Qed.

(** buildUnitPriceFromArticle: an article yields no unit price exactly when
    it has no price object or both its netPrice and grossPrice are nullish. *)
Theorem article_unitPrice_null_iff a :
  buildUnitPriceFromArticle (Some a) = None <->
  price a = None \/
  exists p, price a = Some p /\ not_nullish (netPrice p) = false /\ not_nullish (grossPrice p) = false.
Proof.
  unfold buildUnitPriceFromArticle. destruct (price a) as [p|].
  - rewrite netgross_none_iff.
    assert (Hr : (exists p', Some p = Some p' /\ not_nullish (netPrice p') = false
                                /\ not_nullish (grossPrice p') = false)
                 <-> not_nullish (netPrice p) = false /\ not_nullish (grossPrice p) = false).
    { split; [intros (p' & H & H1 & H2); injection H as <-; split; assumption
             | intros [H1 H2]; exists p; split; [reflexivity | split; assumption]]. }
    assert (Hs : Some p = None <-> False) by (split; [discriminate | intros []]).
    rewrite Hs, Hr.
    destruct (not_nullish (netPrice p)), (not_nullish (grossPrice p)); split;
      first [ intros [H1 H2]; discriminate | intros [[] | [H1 H2]]; discriminate
            | intros _; split; reflexivity | intros _; right; split; reflexivity ].
  - split; [intros _; left; reflexivity | reflexivity].
Qed.

(** buildUnitPriceFromArticle: a non-nullish netPrice that is not a number
    gives a unit price whose netAmount is NaN (and whose grossAmount is NaN too
    when grossPrice is nullish), not a missing unit price. *)
Theorem article_nan_net_price a p :
  price a = Some p -> not_nullish (netPrice p) = true -> to_number (netPrice p) = NaN ->
  exists up, buildUnitPriceFromArticle (Some a) = Some up /\ up_netAmount up = Some NaN /\
    (not_nullish (grossPrice p) = false -> up_grossAmount up = Some NaN).
Proof.
  intros Hp Hn Hnan. unfold buildUnitPriceFromArticle. rewrite Hp, Hn, Hnan.
  destruct (not_nullish (grossPrice p)) eqn:Hg; cbn.
  - eexists; split; [reflexivity|]. split; [reflexivity | discriminate].
  - eexists; split; [reflexivity|]. split; reflexivity.
Qed.

Lemma article_nan_net_price_witness :
  let p := mkPrice (JStr "abc") JNull JUndef in
  let a := mkArticle (Some "Shirt") (Some p) in
  price a = Some p /\ not_nullish (netPrice p) = true /\ to_number (netPrice p) = NaN /\
  exists up, buildUnitPriceFromArticle (Some a) = Some up /\ up_netAmount up = Some NaN /\
    (not_nullish (grossPrice p) = false -> up_grossAmount up = Some NaN).
Proof.
  intros p a.
  assert (H1 : price a = Some p) by reflexivity.
  assert (H2 : not_nullish (netPrice p) = true) by reflexivity.
  assert (H3 : to_number (netPrice p) = NaN) by (vm_compute; reflexivity).
  split; [exact H1|]. split; [exact H2|]. split; [exact H3|].
  exact (article_nan_net_price a p H1 H2 H3).
Defined.

(* key/value sheets *)
Lemma get_set_same o k v : get (set o k v) k = v.
Proof.
  induction o as [|[k' v'] r IH]; cbn.
  - rewrite String.eqb_refl. reflexivity.
  - destruct (String.eqb k k') eqn:E; cbn.
    + apply String.eqb_eq in E. subst. rewrite String.eqb_refl. reflexivity.
    + rewrite E. exact IH.
Qed.

Lemma get_set_other o k k2 v : k2 <> k -> get (set o k v) k2 = get o k2.
Proof.
  intros Hne. induction o as [|[k' v'] r IH]; cbn.
  - apply String.eqb_neq in Hne. rewrite Hne. reflexivity.
  - destruct (String.eqb k k') eqn:E; cbn.
    + apply String.eqb_eq in E. subst k'. apply String.eqb_neq in Hne. rewrite Hne. reflexivity.
    + destruct (String.eqb k2 k'); [reflexivity | exact IH].
Qed.

Lemma has_key_set_other o k k2 v : k2 <> k -> has_key (set o k v) k2 = has_key o k2.
Proof.
  intros Hne. induction o as [|[k' v'] r IH]; cbn.
  - apply String.eqb_neq in Hne. rewrite Hne. reflexivity.
  - destruct (String.eqb k k') eqn:E; cbn.
    + apply String.eqb_eq in E. subst k'. reflexivity.
    + rewrite IH. reflexivity.
Qed.

Lemma kv_fold_other fc vc rows o k :
  (forall r, In r rows -> kv_key fc r <> k) ->
  get (fold_left (kv_step fc vc) rows o) k = get o k /\ has_key (fold_left (kv_step fc vc) rows o) k = has_key o k.
Proof.
  revert o. induction rows as [|r rest IH]; intros o H; cbn; [split; reflexivity|].
  destruct (IH (kv_step fc vc o r) (fun r' Hr' => H r' (or_intror Hr'))) as [H1 H2].
  rewrite H1, H2. unfold kv_step. cbv zeta.
  destruct (String.eqb (kv_key fc r) "");
    [split; reflexivity|].
  assert (Hk : k <> kv_key fc r) by (intros E; apply (H r (or_introl eq_refl)); symmetry; exact E).
  split; [apply get_set_other | apply has_key_set_other]; exact Hk.
Qed.

Lemma kv_fold_last fc vc pre r post o k :
  k <> "" -> kv_key fc r = k -> (forall r', In r' post -> kv_key fc r' <> k) ->
  get (fold_left (kv_step fc vc) (pre ++ r :: post) o) k = get r vc.
Proof.
  intros Hne Hr Hpost. rewrite fold_left_app. cbn [fold_left].
  rewrite (proj1 (kv_fold_other fc vc post _ k Hpost)).
  unfold kv_step. cbv zeta. rewrite Hr.
  apply String.eqb_neq in Hne. rewrite Hne. apply get_set_same.
Qed.

(** sheetRowsToKeyValueObject: when the first row has a field and a value
    column, the object maps each nonempty key (other than "__proto__") to the
    value of the last row carrying that key, and has no key that no row
    carries. *)
Theorem kv_object_last_row_wins rows first fc vc :
  hd_error rows = Some first ->
  find (has_key first) ["Feld"; "feld"; "Field"; "field"] = Some fc ->
  find (has_key first) ["Wert"; "wert"; "Value"; "value"; "val"] = Some vc ->
  exists o, sheetRowsToKeyValueObject rows = Some o /\
  (forall k pre r post, k <> "" -> k <> "__proto__" -> rows = (pre ++ r :: post)%list ->
     kv_key fc r = k -> (forall r', In r' post -> kv_key fc r' <> k) ->
     get o k = get r vc) /\
  (forall k, (forall r, In r rows -> kv_key fc r <> k) ->
     has_key o k = false).
Proof.
  intros Hhd Hf Hv. destruct rows as [|r0 rest]; [discriminate|]. injection Hhd as <-.
  unfold sheetRowsToKeyValueObject. rewrite Hf, Hv. eexists; split; [reflexivity|]. split.
  - intros k pre r post Hne _ Hrows Hr Hpost. rewrite Hrows.
    exact (kv_fold_last fc vc pre r post [] k Hne Hr Hpost).
  - intros k Hk. exact (proj2 (kv_fold_other fc vc (r0 :: rest) [] k Hk)).
Qed.

Lemma kv_object_last_row_wins_witness :
  let rows := [[("Feld", JStr "taxType"); ("Wert", JStr "net")];
               [("Feld", JStr "taxType"); ("Wert", JStr "gross")]] in
  hd_error rows = Some [("Feld", JStr "taxType"); ("Wert", JStr "net")] /\
  find (has_key [("Feld", JStr "taxType"); ("Wert", JStr "net")])
    ["Feld"; "feld"; "Field"; "field"] = Some "Feld" /\
  find (has_key [("Feld", JStr "taxType"); ("Wert", JStr "net")])
    ["Wert"; "wert"; "Value"; "value"; "val"] = Some "Wert" /\
  exists o, sheetRowsToKeyValueObject rows = Some o /\
  (forall k pre r post, k <> "" -> k <> "__proto__" -> rows = (pre ++ r :: post)%list ->
     kv_key "Feld" r = k -> (forall r', In r' post -> kv_key "Feld" r' <> k) ->
     get o k = get r "Wert") /\
  (forall k, (forall r, In r rows -> kv_key "Feld" r <> k) -> has_key o k = false).
Proof.
  intros rows.
  assert (H1 : hd_error rows = Some [("Feld", JStr "taxType"); ("Wert", JStr "net")]) by reflexivity.
  assert (H2 : find (has_key [("Feld", JStr "taxType"); ("Wert", JStr "net")])
                 ["Feld"; "feld"; "Field"; "field"] = Some "Feld") by reflexivity.
  assert (H3 : find (has_key [("Feld", JStr "taxType"); ("Wert", JStr "net")])
                 ["Wert"; "wert"; "Value"; "value"; "val"] = Some "Wert") by reflexivity.
  split; [exact H1|]. split; [exact H2|]. split; [exact H3|].
  exact (kv_object_last_row_wins rows _ "Feld" "Wert" H1 H2 H3).
Defined.

Local Abbreviation lrep a b L := (list_ascii_of_string (replace_first a b (string_of_list_ascii L))).

Lemma lrep_cons a b c r :
  lrep a b (c :: r) = if Ascii.eqb c a then b :: r else c :: lrep a b r.
Proof.
  cbn. destruct (Ascii.eqb c a); cbn; [rewrite list_ascii_of_string_of_list_ascii|]; reflexivity.
Qed.

Lemma lrep_nil a b : lrep a b [] = [].
Proof. reflexivity. Qed.

Lemma lrep_app_l a b w y :
  ~ In a w -> lrep a b (w ++ y) = (w ++ lrep a b y)%list.
Proof.
  induction w as [|c r IH]; intros H; [reflexivity|].
  cbn [app]. rewrite lrep_cons. destruct (Ascii.eqb c a) eqn:E.
  - apply Ascii.eqb_eq in E. subst. exfalso. apply H. left. reflexivity.
  - rewrite IH; [reflexivity|]. intros Hr. apply H. right. exact Hr.
Qed.

Lemma lrep_absent a b y : ~ In a y -> lrep a b y = y.
Proof.
  intros H. rewrite <- (app_nil_r y) at 1. rewrite lrep_app_l by exact H.
  rewrite lrep_nil, app_nil_r. reflexivity.
Qed.

Lemma lrep_app_r a b t w :
  ~ In a w -> lrep a b (t ++ w) = (lrep a b t ++ w)%list.
Proof.
  intros Hw. induction t as [|c r IH]; cbn [app].
  - rewrite lrep_nil. apply lrep_absent. exact Hw.
  - rewrite !lrep_cons. destruct (Ascii.eqb c a); [reflexivity|]. rewrite IH. reflexivity.
Qed.

Lemma drop_ws_app_ws w y :
  (forall x, In x w -> is_ws x = true) -> drop_ws (w ++ y) = drop_ws y.
Proof.
  induction w as [|c r IH]; intros H; [reflexivity|].
  cbn. rewrite (H c (or_introl eq_refl)). apply IH. intros x Hx. apply H. right. exact Hx.
Qed.

Lemma ws_split_nonws X :
  drop_ws X = X -> X = [] \/ exists c r, X = c :: r /\ is_ws c = false.
Proof.
  intros H. destruct (drop_ws_head X) as [Hn|(c & r & Hc & Hcw)].
  - left. rewrite <- H. exact Hn.
  - right. exists c, r. rewrite <- H. split; [exact Hc | exact Hcw].
Qed.

Lemma trim_list_ends L :
  drop_ws (trim_list L) = trim_list L /\ drop_ws (rev (trim_list L)) = rev (trim_list L).
Proof.
  unfold trim_list. set (m := drop_ws L). set (m' := drop_ws (rev m)).
  split.
  - destruct (drop_ws_split (rev m)) as (w & Hw & _). fold m' in Hw.
    assert (Hm : m = (rev m' ++ rev w)%list).
    { rewrite <- rev_app_distr, <- Hw, rev_involutive. reflexivity. }
    destruct (rev m') as [|y t] eqn:Ey; [reflexivity|].
    destruct (drop_ws_head L) as [Hn|(c & r & Hc & Hcw)].
    + fold m in Hn. rewrite Hn in Hm. discriminate Hm.
    + fold m in Hc. rewrite Hc in Hm. cbn in Hm. injection Hm as -> _. apply drop_ws_nonws. exact Hcw.
  - rewrite rev_involutive. unfold m'. apply drop_ws_idem.
Qed.

Lemma trim_list_decomp L :
  exists w1 w2, L = (w1 ++ trim_list L ++ w2)%list /\
    (forall x, In x w1 -> is_ws x = true) /\ (forall x, In x w2 -> is_ws x = true).
Proof.
  destruct (drop_ws_split L) as (w1 & H1 & Hw1).
  destruct (drop_ws_split (rev (drop_ws L))) as (w2 & H2 & Hw2).
  exists w1, (rev w2). split; [|split; [exact Hw1|]].
  - unfold trim_list. rewrite H1 at 1. f_equal.
    transitivity (rev (rev (drop_ws L))); [symmetry; apply rev_involutive|].
    rewrite H2 at 1. rewrite rev_app_distr. reflexivity.
  - intros x Hx. apply Hw2. apply in_rev. exact Hx.
Qed.

Lemma trim_list_app_ws w1 X w2 :
  (forall x, In x w1 -> is_ws x = true) -> (forall x, In x w2 -> is_ws x = true) ->
  drop_ws X = X -> drop_ws (rev X) = rev X ->
  trim_list (w1 ++ X ++ w2) = X.
Proof.
  intros Hw1 Hw2 HX HrX. unfold trim_list. rewrite drop_ws_app_ws by exact Hw1.
  destruct (ws_split_nonws X HX) as [->|(c & r & -> & Hc)].
  - cbn [app]. rewrite <- (app_nil_r w2), (drop_ws_app_ws w2 []) by exact Hw2. reflexivity.
  - rewrite <- app_comm_cons, drop_ws_nonws by exact Hc.
    rewrite app_comm_cons, rev_app_distr, drop_ws_app_ws, HrX, rev_involutive; [reflexivity|].
    intros x Hx. apply Hw2. apply in_rev. exact Hx.
Qed.

Section Replace.

Variables a b : ascii.
Hypothesis Ha : is_ws a = false.
Hypothesis Hb : is_ws b = false.

Lemma ws_not_a w : (forall x, In x w -> is_ws x = true) -> ~ In a w.
Proof. intros H Hin. rewrite (H a Hin) in Ha. discriminate Ha. Qed.

Lemma lrep_head X : drop_ws X = X -> drop_ws (lrep a b X) = lrep a b X.
Proof.
  intros H. destruct (ws_split_nonws X H) as [->|(c & r & -> & Hc)]; [reflexivity|].
  rewrite lrep_cons. destruct (Ascii.eqb c a); apply drop_ws_nonws; assumption.
Qed.

Lemma lrep_snoc X z :
  exists Y z', lrep a b (X ++ [z]) = (Y ++ [z'])%list /\ (z' = z \/ z' = b).
Proof.
  induction X as [|c r IH]; cbn [app].
  - rewrite lrep_cons, lrep_nil. destruct (Ascii.eqb z a).
    + exists [], b. split; [reflexivity | right; reflexivity].
    + exists [], z. split; [reflexivity | left; reflexivity].
  - rewrite lrep_cons. destruct (Ascii.eqb c a).
    + exists (b :: r), z. split; [reflexivity | left; reflexivity].
    + destruct IH as (Y & z' & -> & Hz). exists (c :: Y), z'. split; [reflexivity | exact Hz].
Qed.

Lemma lrep_last X : drop_ws (rev X) = rev X -> drop_ws (rev (lrep a b X)) = rev (lrep a b X).
Proof.
  intros H. destruct (ws_split_nonws (rev X) H) as [Hn|(z & r & Hz & Hzw)].
  - apply (f_equal (@rev ascii)) in Hn. rewrite rev_involutive in Hn. subst X. reflexivity.
  - apply (f_equal (@rev ascii)) in Hz. rewrite rev_involutive in Hz. subst X. cbn [rev].
    destruct (lrep_snoc (rev r) z) as (Y & z' & -> & Hz'). rewrite rev_app_distr. cbn [rev app].
    apply drop_ws_nonws. destruct Hz' as [-> | ->]; assumption.
Qed.

Lemma trim_list_lrep L : trim_list (lrep a b L) = lrep a b (trim_list L).
Proof.
  destruct (trim_list_decomp L) as (w1 & w2 & HL & Hw1 & Hw2).
  destruct (trim_list_ends L) as [He1 He2].
  rewrite HL at 1. rewrite lrep_app_l, lrep_app_r by (apply ws_not_a; assumption).
  apply trim_list_app_ws; [exact Hw1 | exact Hw2 | apply lrep_head, He1 | apply lrep_last, He2].
Qed.

Lemma trim_replace_first s : trim (replace_first a b s) = replace_first a b (trim s).
Proof.
  unfold trim. rewrite <- (string_of_list_ascii_of_string s) at 1.
  rewrite trim_list_lrep, string_of_list_ascii_of_string. reflexivity.
Qed.

End Replace.

(** parseNumberValue: on every non-empty string, the number parser of the
    Excel import gives the number [parseNumber] gives, and [NaN] where
    [parseNumber] gives [null]; replacing the comma before or after trimming
    makes no difference. *)
Lemma parseNumberValue_matches_parseNumber (s : string) :
  s <> EmptyString ->
  parseNumberValue (JStr s) = match parseNumber (JStr s) with Some v => v | None => NaN end.
Proof.
  intros Hs. destruct s as [|c r]; [contradiction Hs; reflexivity|].
  unfold parseNumberValue, parseNumber. cbv zeta. cbn [js_string].
  rewrite trim_replace_first by reflexivity.
  destruct (is_finite _); reflexivity.
Qed.

Lemma parseNumberValue_matches_parseNumber_witness :
  " 2,5" <> EmptyString /\
  parseNumberValue (JStr " 2,5") = match parseNumber (JStr " 2,5") with Some v => v | None => NaN end /\
  parseNumber (JStr " 2,5") = Some (fin (5 # 2)).
Proof.
  split; [discriminate|]. split.
  - exact (parseNumberValue_matches_parseNumber " 2,5" ltac:(discriminate)).
  - vm_compute. reflexivity.
Defined.
